(** * catkin_tools workspace metadata store

    A shallow embedding of [src/catkin_tools/metadata.py] together with the
    parts of the Python runtime it calls: [posixpath.join] and
    [posixpath.split], the filesystem primitives ([os.path.exists],
    [os.path.isdir], [os.mkdir], [shutil.rmtree], [open]) and the YAML
    codec.  Filesystem effects are threaded through a state-and-exception
    monad whose state survives a raised exception, as a partially executed
    Python function leaves its mutations behind. *)

From stdpp Require Import gmap strings list fin_maps sorting pretty.
From Stdlib Require Import Ascii ZArith Lia.

Set Warnings "-register-all".

Local Open Scope string_scope.
Local Open Scope list_scope.
Local Open Scope nat_scope.

(** ** Strings *)

Definition is_empty (s : string) : bool :=
  match s with EmptyString => true | String _ _ => false end.

(** [s.split(sep)] for a one-character separator: the pieces between
    separators, empty pieces included; never the empty list. *)
Fixpoint split_on (sep : ascii) (s : string) : list string :=
  match s with
  | EmptyString => [EmptyString]
  | String c r =>
      if Ascii.eqb c sep then EmptyString :: split_on sep r
      else match split_on sep r with
           | x :: xs => String c x :: xs
           | [] => [String c EmptyString]
           end
  end.

(** ** POSIX path strings ([posixpath]) *)

Module PosixPath.

Definition is_sep (c : ascii) : bool := Ascii.eqb c "/".

Definition startswith_sep (s : string) : bool :=
  match s with EmptyString => false | String c _ => is_sep c end.

Fixpoint endswith_sep (s : string) : bool :=
  match s with
  | EmptyString => false
  | String c EmptyString => is_sep c
  | String _ r => endswith_sep r
  end.

(** [s == '/' * len(s)] *)
Fixpoint all_sep (s : string) : bool :=
  match s with
  | EmptyString => true
  | String c r => is_sep c && all_sep r
  end.

(** [posixpath.join(a, b)]: an absolute [b] discards [a]; a separator is
    inserted unless [a] is empty or already ends with one. *)
Definition join (a b : string) : string :=
  if startswith_sep b then b
  else if is_empty a || endswith_sep a then a +:+ b
  else a +:+ "/" +:+ b.

(** [(p[:i], p[i:])] for [i = p.rfind('/') + 1]. *)
Fixpoint rpartition (p : string) : string * string :=
  match p with
  | EmptyString => (EmptyString, EmptyString)
  | String c r =>
      let '(h, t) := rpartition r in
      if is_sep c || negb (is_empty h) then (String c h, t)
      else (EmptyString, String c t)
  end.

(** [s.rstrip('/')] *)
Fixpoint rstrip_sep (s : string) : string :=
  match s with
  | EmptyString => EmptyString
  | String c r =>
      match rstrip_sep r with
      | EmptyString => if is_sep c then EmptyString else String c EmptyString
      | r' => String c r'
      end
  end.

(** [posixpath.split(p)]: head and tail around the last separator; the
    head loses its trailing separators unless it consists of separators
    only. *)
Definition split (p : string) : string * string :=
  let '(head, tail) := rpartition p in
  (if negb (is_empty head) && negb (all_sep head) then rstrip_sep head
   else head, tail).

(** The pieces of a path between separators, empty pieces included:
    [p.split('/')]. *)
Definition components (p : string) : list string := split_on "/" p.

(** Number of named (non-empty) components. *)
Definition depth (p : string) : nat :=
  List.length (filter (λ c, c ≠ EmptyString) (components p)).

End PosixPath.


(** ** Structured values and the YAML codec *)

(** What [yaml.load] can return: the tagged union of null, booleans,
    integers, strings, sequences and string-keyed mappings. *)
Inductive value :=
  | VNull
  | VBool (b : bool)
  | VInt (n : Z)
  | VStr (s : string)
  | VSeq (l : list value)
  | VMap (m : gmap string value).

(** Python truthiness, as used by [x or dict()]. *)
Definition truthy (v : value) : bool :=
  match v with
  | VNull => false
  | VBool b => b
  | VInt n => negb (n =? 0)%Z
  | VStr s => negb (is_empty s)
  | VSeq l => match l with [] => false | _ => true end
  | VMap m => negb (bool_decide (size m = 0))
  end.

(** [a or b] *)
Definition py_or (a b : value) : value := if truthy a then a else b.

(** The external YAML library: [yaml.load] (no result on a document that
    does not parse) and [yaml.dump(.., default_flow_style=False)]. *)
Class YamlCodec := {
  yaml_load : string → option value;
  yaml_dump : value → string
}.

(** ** Exceptions *)

Inductive errno := ENOENT | ENOTDIR | EEXIST | EISDIR | ENAMETOOLONG.

(** [IOError msg] is an [IOError] raised by the module itself with a
    message; [OSError e path] is raised by a filesystem primitive;
    [ValueError] is what Python 3 raises for a path with a NUL byte. *)
Inductive exn :=
  | IOError (msg : string)
  | OSError (e : errno) (path : string)
  | TypeError
  | ValueError
  | AttributeError
  | YAMLError.

(** ** The filesystem

    Nodes are keyed by their resolved absolute location, the list of names
    from the root (the root itself is the empty list and always a
    directory).  The model has no symbolic links and no permissions.  The
    calls are those of Python 3 on Linux: a path with a NUL byte is refused
    before any system call, a component of more than [NAME_MAX] bytes and a
    path of [PATH_MAX] bytes or more by the system call. *)

Inductive node := Dir | File (content : string).

Record filesystem := Filesystem {
  cwd : list string;
  nodes : gmap (list string) node
}.

Definition node_at (fs : filesystem) (k : list string) : option node :=
  match k with
  | [] => Some Dir
  | _ => nodes fs !! k
  end.

(** Follows the components of a path from location [k]; every location that
    is passed through must be a directory.  The location arrived at need
    not exist. *)
Fixpoint walk (fs : filesystem) (k : list string) (cs : list string)
  : errno + list string :=
  match cs with
  | [] => inr k
  | c :: cs' =>
      match node_at fs k with
      | Some Dir =>
          if decide (c = "" ∨ c = ".") then walk fs k cs'
          else if decide (c = "..") then walk fs (removelast k) cs'
          else walk fs (k ++ [c]) cs'
      | Some (File _) => inl ENOTDIR
      | None => inl ENOENT
      end
  end.

(** The location a path names, limits apart; the empty path names
    nothing. *)
Definition resolve (fs : filesystem) (p : string) : errno + list string :=
  if is_empty p then inl ENOENT
  else walk fs (if PosixPath.startswith_sep p then [] else cwd fs)
         (PosixPath.components p).

Definition NAME_MAX : nat := 255.
Definition PATH_MAX : nat := 4096.

Fixpoint has_nul (s : string) : bool :=
  match s with
  | EmptyString => false
  | String c r => Ascii.eqb c "000" || has_nul r
  end.

(** The walk as the system call makes it: a name of more than [NAME_MAX]
    bytes is refused when it is looked up, after the directory it is
    looked up in has been checked. *)
Fixpoint sys_walk (fs : filesystem) (k : list string) (cs : list string)
  : errno + list string :=
  match cs with
  | [] => inr k
  | c :: cs' =>
      match node_at fs k with
      | Some Dir =>
          if decide (c = "" ∨ c = ".") then sys_walk fs k cs'
          else if decide (c = "..") then sys_walk fs (removelast k) cs'
          else if NAME_MAX <? String.length c then inl ENAMETOOLONG
          else sys_walk fs (k ++ [c]) cs'
      | Some (File _) => inl ENOTDIR
      | None => inl ENOENT
      end
  end.

Definition sys_resolve (fs : filesystem) (p : string) : errno + list string :=
  if is_empty p then inl ENOENT
  else if PATH_MAX <=? String.length p then inl ENAMETOOLONG
  else sys_walk fs (if PosixPath.startswith_sep p then [] else cwd fs)
         (PosixPath.components p).

(** What every filesystem call of Python 3 does with its path first. *)
Definition locate (fs : filesystem) (p : string) : exn + list string :=
  if has_nul p then inl ValueError
  else match sys_resolve fs p with
       | inl e => inl (OSError e p)
       | inr k => inr k
       end.

(** The path is within the limits: no NUL byte, fewer than [PATH_MAX]
    bytes, no component of more than [NAME_MAX] bytes. *)
Definition path_ok (p : string) : bool :=
  negb (has_nul p)
  && (String.length p <? PATH_MAX)
  && forallb (λ c, String.length c <=? NAME_MAX) (PosixPath.components p).

(** [os.stat(p)] *)
Definition os_stat (fs : filesystem) (p : string) : exn + node :=
  match locate fs p with
  | inl e => inl e
  | inr k =>
      match node_at fs k with
      | Some n => inr n
      | None => inl (OSError ENOENT p)
      end
  end.

(** [os.path.exists] and [os.path.isdir] on a string: false on any
    [OSError] or [ValueError] of [os.stat]. *)
Definition path_exists (fs : filesystem) (p : string) : bool :=
  match os_stat fs p with inr _ => true | inl _ => false end.

Definition path_isdir (fs : filesystem) (p : string) : bool :=
  match os_stat fs p with inr Dir => true | _ => false end.

Definition set_node (k : list string) (n : node) (fs : filesystem) : filesystem :=
  Filesystem (cwd fs) (<[k := n]> (nodes fs)).

Definition remove_tree (k : list string) (fs : filesystem) : filesystem :=
  Filesystem (cwd fs) (filter (λ kv, ¬ (k `prefix_of` kv.1)) (nodes fs)).

(** ** The state-and-exception monad *)

Inductive outcome (A : Type) :=
  | Returned (a : A)
  | Raised (e : exn).
Arguments Returned {A} a.
Arguments Raised {A} e.

Definition M (A : Type) : Type := filesystem → outcome A * filesystem.

Definition ret {A} (a : A) : M A := λ fs, (Returned a, fs).
Definition raise {A} (e : exn) : M A := λ fs, (Raised e, fs).
Definition bind {A B} (m : M A) (k : A → M B) : M B :=
  λ fs, match m fs with
        | (Returned a, fs') => k a fs'
        | (Raised e, fs') => (Raised e, fs')
        end.
Definition gets {A} (f : filesystem → A) : M A := λ fs, (Returned (f fs), fs).
Definition modify (f : filesystem → filesystem) : M unit := λ fs, (Returned tt, f fs).

Declare Scope py_scope.
Delimit Scope py_scope with py.
Notation "x <- c ;; k" := (bind c (λ x, k))
  (at level 100, c at next level, right associativity) : py_scope.
Notation "c ;; k" := (bind c (λ _, k))
  (at level 100, right associativity) : py_scope.
Local Open Scope py_scope.

(** ** Filesystem primitives *)

(** [os.path.exists(p)] where [p] may be [None]: [os.stat(None)] raises
    [TypeError], which [os.path.exists] does not catch. *)
Definition os_path_exists (p : option string) : M bool :=
  match p with
  | None => raise TypeError
  | Some p => gets (λ fs, path_exists fs p)
  end.

(** [os.mkdir(p)] *)
Definition os_mkdir (p : string) : M unit :=
  λ fs, match locate fs p with
        | inl e => (Raised e, fs)
        | inr k =>
            match node_at fs k with
            | Some _ => (Raised (OSError EEXIST p), fs)
            | None => (Returned tt, set_node k Dir fs)
            end
        end.

(** [shutil.rmtree(p)]: removes the directory and everything below it. *)
Definition shutil_rmtree (p : string) : M unit :=
  λ fs, match locate fs p with
        | inl e => (Raised e, fs)
        | inr k =>
            match node_at fs k with
            | Some Dir => (Returned tt, remove_tree k fs)
            | Some (File _) => (Raised (OSError ENOTDIR p), fs)
            | None => (Raised (OSError ENOENT p), fs)
            end
        end.

(** [with open(p, 'w') as f: f.write(text)]: creates or overwrites. *)
Definition write_file (p : option string) (text : string) : M unit :=
  match p with
  | None => raise TypeError
  | Some p =>
      λ fs, match locate fs p with
            | inl e => (Raised e, fs)
            | inr k =>
                match node_at fs k with
                | Some Dir => (Raised (OSError EISDIR p), fs)
                | _ => (Returned tt, set_node k (File text) fs)
                end
            end
  end.

(** [with open(p, 'r') as f: f.read()] *)
Definition read_file (p : option string) : M string :=
  match p with
  | None => raise TypeError
  | Some p =>
      λ fs, match os_stat fs p with
            | inl e => (Raised e, fs)
            | inr Dir => (Raised (OSError EISDIR p), fs)
            | inr (File text) => (Returned text, fs)
            end
  end.

(** ** catkin_tools/metadata.py *)

Definition METADATA_DIR_NAME : string := ".catkin_tools".

Definition METADATA_README_TEXT : string :=
"# Catkin Tools Metadata

This directory was generated by catkin_tools and it contains persistent
configuration information used by the `catkin` command and its sub-commands.

Please see the catkin_tools documentation before editing any files in this
directory.
".

(** Truthiness of an optional string: [None] and [''] are false. *)
Definition str_truthy (s : option string) : bool :=
  match s with
  | None => false
  | Some s => negb (is_empty s)
  end.

(** ['%s' % s] for an optional string. *)
Definition py_str (s : option string) : string := default "None" s.

(** ['%s.yml' % verb] *)
Definition verb_file_name (verb : option string) : string :=
  py_str verb +:+ ".yml".

Definition get_paths (workspace_path : string) (verb : option string)
  : string * option string :=
  let metadata_dir := PosixPath.join workspace_path METADATA_DIR_NAME in
  let metadata_file_path :=
    if str_truthy verb
    then Some (PosixPath.join metadata_dir (verb_file_name verb))
    else None in
  (metadata_dir, metadata_file_path).

(** One pass through the body of the [while True] loop of
    [find_enclosing_workspace]: it returns, or goes round again with the
    parent as the new search path. *)
Inductive loop_step :=
  | Return (result : option string)
  | Continue (search_start_path : string).

Definition find_enclosing_workspace_body (fs : filesystem)
    (search_start_path : string) : loop_step :=
  let '(candidate_path, _) := get_paths search_start_path None in
  if path_exists fs candidate_path && path_isdir fs candidate_path
  then Return (Some search_start_path)
  else
    let '(search_start_path', child_dir) := PosixPath.split search_start_path in
    if (String.length child_dir =? 0)%nat then Return None
    else Continue search_start_path'.

(** The loop run for at most [fuel] passes; no result when the fuel runs
    out first. *)
Fixpoint find_enclosing_workspace_loop (fuel : nat) (fs : filesystem)
    (search_start_path : string) : option (option string) :=
  match fuel with
  | O => None
  | S fuel' =>
      match find_enclosing_workspace_body fs search_start_path with
      | Return result => Some result
      | Continue search_start_path' =>
          find_enclosing_workspace_loop fuel' fs search_start_path'
      end
  end.

(** The loop as a relation, without fuel: started on [p] it returns
    [result] in its [n]-th pass, in which the search path is [q]. *)
Inductive loop_run (fs : filesystem)
  : string → nat → string → option string → Prop :=
  | run_return p result :
      find_enclosing_workspace_body fs p = Return result →
      loop_run fs p 1 p result
  | run_continue p p' n q result :
      find_enclosing_workspace_body fs p = Continue p' →
      loop_run fs p' n q result →
      loop_run fs p (S n) q result.

(** [find_enclosing_workspace]: the loop with one pass more than the path
    has named components, which always suffices (see [loop_enough_fuel]). *)
Definition find_enclosing_workspace (fs : filesystem)
    (search_start_path : string) : option string :=
  match find_enclosing_workspace_loop (S (PosixPath.depth search_start_path))
          fs search_start_path with
  | Some result => result
  | None => None
  end.

(** The search paths of the loop, in the order of its passes when no pass
    finds a workspace: the start path, then the head of each
    [posixpath.split] in turn, up to and including the first path whose
    split has an empty tail.  This is what the loop does with the path
    string; what it ought to visit is [ancestry] below. *)
Fixpoint upward_walk_from (fuel : nat) (p : string) : list string :=
  match fuel with
  | O => []
  | S fuel' =>
      p :: (let '(head, tail) := PosixPath.split p in
            if is_empty tail then [] else upward_walk_from fuel' head)
  end.

Definition upward_walk (p : string) : list string :=
  upward_walk_from (S (PosixPath.depth p)) p.

Definition not_exist_message (workspace_path : string) : string :=
  "Can't initialize Catkin workspace in path " +:+ workspace_path +:+
  " because it does not exist.".

Definition nested_message (workspace_path marked_workspace : string) : string :=
  "Can't initialize Catkin workspace in path " +:+ workspace_path +:+
  " because it is already contained in another workspace: " +:+
  marked_workspace +:+ ".".

(** The message printed on reset goes to standard output, which is not part
    of the state. *)
Definition init_metadata_dir (workspace_path : string) (reset : bool) : M unit :=
  ex <- gets (λ fs, path_exists fs workspace_path);;
  if negb ex then raise (IOError (not_exist_message workspace_path))
  else
    marked_workspace <- gets (λ fs, find_enclosing_workspace fs workspace_path);;
    if str_truthy marked_workspace
       && negb (bool_decide (marked_workspace = Some workspace_path))
    then raise (IOError (nested_message workspace_path
                           (py_str marked_workspace)))
    else
      let '(metadata_dir, _) := get_paths workspace_path None in
      md_exists <- gets (λ fs, path_exists fs metadata_dir);;
      (if md_exists
       then (if reset
             then (shutil_rmtree metadata_dir;; os_mkdir metadata_dir)
             else ret tt)
       else os_mkdir metadata_dir);;
      write_file (Some (PosixPath.join metadata_dir "README"))
        METADATA_README_TEXT.

(** [data.update(new_data)]: only a mapping has the method. *)
Definition dict_update (data : value) (new_data : gmap string value) : M value :=
  match data with
  | VMap m => ret (VMap (new_data ∪ m))
  | _ => raise AttributeError
  end.

Section Metadata.
Context `{YamlCodec}.

Definition get_metadata (workspace_path verb : string) : M value :=
  let '(metadata_dir, metadata_file_path) :=
    get_paths workspace_path (Some verb) in
  ex <- os_path_exists metadata_file_path;;
  if negb ex then ret (VMap ∅)
  else
    text <- read_file metadata_file_path;;
    match yaml_load text with
    | Some v => ret v
    | None => raise YAMLError
    end.

Definition update_metadata (workspace_path verb : string)
    (new_data : gmap string value) : M unit :=
  let '(metadata_dir, metadata_file_path) :=
    get_paths workspace_path (Some verb) in
  init_metadata_dir workspace_path false;;
  current <- get_metadata metadata_dir verb;;
  let data := py_or current (VMap ∅) in
  data <- dict_update data new_data;;
  write_file metadata_file_path (yaml_dump data).

End Metadata.

(** ** Notions used by the specification *)

(** A path is a workspace when the metadata directory exists, as a
    directory, directly under it. *)
Definition is_workspace (fs : filesystem) (p : string) : bool :=
  path_exists fs (PosixPath.join p METADATA_DIR_NAME)
  && path_isdir fs (PosixPath.join p METADATA_DIR_NAME).

(** The initial segments of a list, shortest first. *)
Fixpoint prefixes (cs : list string) : list (list string) :=
  [] :: match cs with
        | [] => []
        | c :: cs' => map (cons c) (prefixes cs')
        end.

(** A directory and its ancestors, closest first: the location itself, its
    parent directory, and so on up to the filesystem root. *)
Definition ancestry (k : list string) : list (list string) :=
  reverse (prefixes k).

(** The metadata directory exists as a directory directly under the
    location. *)
Definition is_workspace_location (fs : filesystem) (k : list string) : bool :=
  match node_at fs (k ++ [METADATA_DIR_NAME]) with
  | Some Dir => true
  | _ => false
  end.

(** Discovery as the specification words it: starting at the directory the
    start path names, the first (innermost, closest) of that directory and
    its ancestors under which the metadata directory exists as a directory,
    found by moving to the parent directory until the filesystem root is
    reached; absence when there is none. *)
Definition closest_workspace (fs : filesystem) (p : string)
  : option (list string) :=
  match resolve fs p with
  | inl _ => None
  | inr k => List.find (is_workspace_location fs) (ancestry k)
  end.

(** [q] is an initial segment of the string [p]. *)
Definition string_prefix (q p : string) : Prop := ∃ r, p = q +:+ r.

(** Result and final state of a computation. *)
Definition result_of {A} (m : M A) (fs : filesystem) : outcome A := (m fs).1.
Definition state_after {A} (m : M A) (fs : filesystem) : filesystem := (m fs).2.

(** A named path component: not empty and without a separator. *)
Definition plain_component (c : string) : Prop :=
  c ≠ "" ∧ PosixPath.components c = [c].

(** A verb that is usable as a file name. *)
Definition plain_verb (verb : string) : Prop := plain_component verb.

(** [base/c1/.../cn] *)
Fixpoint below (base : string) (cs : list string) : string :=
  match cs with
  | [] => base
  | c :: cs' => below (base +:+ "/" +:+ c) cs'
  end.

(** The normalised absolute path with the given components: [/] when there
    are none, [/c1/.../cn] otherwise. *)
Definition absolute (cs : list string) : string :=
  match cs with
  | [] => "/"
  | _ => below "" cs
  end.

(** A name of a directory entry: one component that is neither empty nor
    one of the two special entries. *)
Definition plain_name (n : string) : Prop :=
  n ≠ "" ∧ n ≠ "." ∧ n ≠ ".." ∧ PosixPath.components n = [n].

(** [fs'] has the working directory of [fs] and every directory of [fs]. *)
Definition dirs_kept (fs fs' : filesystem) : Prop :=
  cwd fs' = cwd fs ∧ ∀ k, node_at fs k = Some Dir → node_at fs' k = Some Dir.

(** Locations inside the workspace at location [k]: the metadata
    directory, its README, the document of a verb, and the place where
    [update_metadata] looks for the current document (it hands the metadata
    directory, not the workspace, to [get_metadata]). *)
Definition metadata_dir_at (k : list string) : list string :=
  k ++ [METADATA_DIR_NAME].
Definition readme_at (k : list string) : list string :=
  metadata_dir_at k ++ ["README"].
Definition verb_file_at (k : list string) (verb : string) : list string :=
  metadata_dir_at k ++ [verb_file_name (Some verb)].
Definition read_location_at (k : list string) (verb : string) : list string :=
  (metadata_dir_at k ++ [METADATA_DIR_NAME]) ++ [verb_file_name (Some verb)].

(** The path names an existing directory, at location [k], that can take a
    metadata directory: it is not inside another workspace, what is at the
    metadata directory's place (if anything) is a directory, the README's
    place is not taken by a directory, and the path of the README (hence
    that of the metadata directory and of the workspace) is within the
    limits of the system. *)
Record workspace_ready (fs : filesystem) (w : string) (k : list string) : Prop := {
  ready_resolve : resolve fs w = inr k;
  ready_dir : node_at fs k = Some Dir;
  ready_not_nested :
    find_enclosing_workspace fs w = None ∨ find_enclosing_workspace fs w = Some w;
  ready_metadata_dir :
    node_at fs (metadata_dir_at k) = None ∨ node_at fs (metadata_dir_at k) = Some Dir;
  ready_readme : node_at fs (readme_at k) ≠ Some Dir;
  ready_limits :
    path_ok (PosixPath.join (PosixPath.join w METADATA_DIR_NAME) "README") = true
}.

(** What [init_metadata_dir] without reset needs in order to return: as
    [workspace_ready], with the nesting check as the code makes it, which a
    workspace found at the empty path passes too. *)
Record init_passes (fs : filesystem) (w : string) (k : list string) : Prop := {
  passes_locate : locate fs w = inr k;
  passes_dir : node_at fs k = Some Dir;
  passes_nested :
    find_enclosing_workspace fs w = None
    ∨ find_enclosing_workspace fs w = Some w
    ∨ find_enclosing_workspace fs w = Some "";
  passes_metadata_dir :
    node_at fs (metadata_dir_at k) = None ∨ node_at fs (metadata_dir_at k) = Some Dir;
  passes_readme : node_at fs (readme_at k) ≠ Some Dir;
  passes_limits :
    path_ok (PosixPath.join (PosixPath.join w METADATA_DIR_NAME) "README") = true
}.

(** The filesystem after a successful [init_metadata_dir] without reset,
    and after a successful [update_metadata] that wrote [text]. *)
Definition initialised (k : list string) (fs : filesystem) : filesystem :=
  set_node (readme_at k) (File METADATA_README_TEXT)
    (match node_at fs (metadata_dir_at k) with
     | None => set_node (metadata_dir_at k) Dir fs
     | Some _ => fs
     end).

Definition updated (k : list string) (verb text : string) (fs : filesystem)
  : filesystem :=
  set_node (verb_file_at k verb) (File text) (initialised k fs).

(** The filesystem after a successful [init_metadata_dir] with reset. *)
Definition reset_state (k : list string) (fs : filesystem) : filesystem :=
  set_node (readme_at k) (File METADATA_README_TEXT)
    (set_node (metadata_dir_at k) Dir (remove_tree (metadata_dir_at k) fs)).

(** ** A block-style codec for flat integer mappings

    Enough of YAML to run the module on concrete documents: the null
    document, the empty mapping and mappings from plain keys to integers,
    one [key: value] line each, keys in order. *)

Module FlatYaml.

Definition nl : string := String "010"%char "".

Definition unsupported : string := "!unsupported" +:+ nl.

Definition dump_entry (kv : string * value) : option string :=
  match kv.2 with
  | VInt n => Some (kv.1 +:+ ": " +:+ pretty n +:+ nl)
  | _ => None
  end.

Definition dump (v : value) : string :=
  match v with
  | VNull => "null" +:+ nl +:+ "..." +:+ nl
  | VMap m =>
      if bool_decide (size m = 0) then "{}" +:+ nl
      else match mapM dump_entry
                   (merge_sort (λ a b, String.le a.1 b.1) (map_to_list m)) with
           | Some ls => String.concat "" ls
           | None => unsupported
           end
  | _ => unsupported
  end.

Definition digit (c : ascii) : option Z :=
  let n := nat_of_ascii c in
  if (48 <=? n)%nat && (n <=? 57)%nat then Some (Z.of_nat (n - 48)) else None.

Fixpoint parse_digits (acc : Z) (s : string) : option Z :=
  match s with
  | EmptyString => Some acc
  | String c r => d ← digit c; parse_digits (10 * acc + d)%Z r
  end.

Definition parse_int (s : string) : option Z :=
  match s with
  | EmptyString => None
  | String c r =>
      if Ascii.eqb c "-"
      then (if is_empty r then None else (Z.opp <$> parse_digits 0 r))
      else parse_digits 0 s
  end.

(** Splits [key: value] at the first colon followed by a space. *)
Fixpoint split_colon (s : string) : option (string * string) :=
  match s with
  | EmptyString => None
  | String c r =>
      match r with
      | String c' r' =>
          if Ascii.eqb c ":" && Ascii.eqb c' " " then Some (EmptyString, r')
          else kv ← split_colon r; Some (String c kv.1, kv.2)
      | EmptyString => None
      end
  end.

Definition parse_entry (line : string) : option (string * value) :=
  kv ← split_colon line;
  n ← parse_int kv.2;
  if is_empty kv.1 then None else Some (kv.1, VInt n).

Definition load (s : string) : option value :=
  if decide (s = "") then Some VNull
  else if decide (s = "null" +:+ nl +:+ "..." +:+ nl) then Some VNull
  else if decide (s = "{}" +:+ nl) then Some (VMap ∅)
  else match reverse (split_on "010" s) with
       | EmptyString :: rlines =>
           es ← mapM parse_entry (reverse rlines);
           Some (VMap (list_to_map es))
       | _ => None
       end.

Definition codec : YamlCodec := {| yaml_load := load; yaml_dump := dump |}.

End FlatYaml.

(** ** Example filesystems and documents *)

Module Examples.

(** A directory [/w] that is not a workspace; the working directory is
    [/home]. *)
Definition fs_plain : filesystem :=
  Filesystem ["home"] {[ ["home"] := Dir; ["w"] := Dir ]}.

(** The working directory [/home] is a workspace and has a subdirectory
    [a]. *)
Definition fs_home_workspace : filesystem :=
  Filesystem ["home"]
    {[ ["home"] := Dir;
       ["home"; ".catkin_tools"] := Dir;
       ["home"; "a"] := Dir ]}.

(** The workspace [/w] with a file at the place where [update_metadata]
    looks for the current document of a verb. *)
Definition fs_read_location (verb text : string) : filesystem :=
  Filesystem ["home"]
    {[ ["home"] := Dir;
       ["w"] := Dir;
       ["w"; ".catkin_tools"] := Dir;
       ["w"; ".catkin_tools"; ".catkin_tools"] := Dir;
       ["w"; ".catkin_tools"; ".catkin_tools"; verb +:+ ".yml"] := File text ]}.



(** The workspace [/w] with a document [/w/x.yml] next to the metadata
    directory. *)
Definition fs_outside_document : filesystem :=
  Filesystem ["home"]
    {[ ["home"] := Dir;
       ["w"] := Dir;
       ["w"; ".catkin_tools"] := Dir;
       ["w"; "x.yml"] := File ("a: 1" +:+ FlatYaml.nl) ]}.

(** The workspace [/home] with the directory [/home/a/pkg] below it; the
    working directory is [/home/a]. *)
Definition fs_below_workspace : filesystem :=
  Filesystem ["home"; "a"]
    {[ ["home"] := Dir;
       ["home"; ".catkin_tools"] := Dir;
       ["home"; "a"] := Dir;
       ["home"; "a"; "pkg"] := Dir ]}.

(** [n] copies of a string, one after the other. *)
Fixpoint copies (n : nat) (s : string) : string :=
  match n with
  | O => ""
  | S n' => s +:+ copies n' s
  end.

Definition long_w : string := "/w" +:+ copies 2037 "/.".

Definition a1 : gmap string value := {[ "a" := VInt 1 ]}.
Definition b2 : gmap string value := {[ "b" := VInt 2 ]}.
Definition z9 : gmap string value := {[ "z" := VInt 9 ]}.

End Examples.

(** * Verification *)

#[local] Arguments String.append !_ _ / : simpl nomatch.

(** ** Strings *)

Section StringFacts.

Lemma app_empty_r (s : string) : s +:+ "" = s.
Proof. induction s as [|c s IH]; simpl; [done | by rewrite IH]. Qed.

Lemma app_assoc_str (a b c : string) : (a +:+ b) +:+ c = a +:+ (b +:+ c).
Proof. induction a as [|x a IH]; simpl; [done | by rewrite IH]. Qed.

Lemma length_app_str (a b : string) :
  String.length (a +:+ b) = String.length a + String.length b.
Proof. induction a as [|x a IH]; simpl; [done | by rewrite IH]. Qed.

Lemma is_empty_true (s : string) : is_empty s = true ↔ s = "".
Proof. destruct s; simpl; split; congruence. Qed.

Lemma is_empty_false (s : string) : is_empty s = false ↔ s ≠ "".
Proof. destruct s; simpl; split; congruence. Qed.

Lemma is_empty_app (a b : string) :
  is_empty a = false → is_empty (a +:+ b) = false.
Proof. by destruct a. Qed.

Lemma split_on_nonnil sep s : split_on sep s ≠ [].
Proof.
  destruct s as [|c s]; simpl; [done |].
  destruct (Ascii.eqb c sep); [done |].
  by destruct (split_on sep s).
Qed.

(** Splitting distributes over a separator. *)
Lemma split_on_app_sep sep a b :
  split_on sep (a +:+ String sep b) = split_on sep a ++ split_on sep b.
Proof.
  induction a as [|c a IH]; simpl.
  - by rewrite Ascii.eqb_refl.
  - destruct (Ascii.eqb c sep); [by rewrite IH |].
    rewrite IH. destruct (split_on sep a) eqn:Ha; [|done].
    by apply split_on_nonnil in Ha.
Qed.

Lemma split_on_plain_app sep a b :
  split_on sep a = [a] → split_on sep b = [b] →
  split_on sep (a +:+ b) = [a +:+ b].
Proof.
  intros Ha Hb. induction a as [|c a IH]; simpl in *; [done |].
  destruct (Ascii.eqb c sep); [done |].
  destruct (split_on sep a) as [|x xs] eqn:E; [by apply split_on_nonnil in E |].
  injection Ha as -> ->. by rewrite IH.
Qed.

(** Appending a piece without separator extends the last piece. *)
Lemma split_on_app_tail sep s t :
  split_on sep t = [t] →
  ∃ init l, split_on sep s = init ++ [l]
            ∧ split_on sep (s +:+ t) = init ++ [l +:+ t].
Proof.
  intros Ht. induction s as [|c s (init & l & Hs & Hst)]; simpl.
  - exists [], "". by split.
  - rewrite Hs, Hst. destruct (Ascii.eqb c sep).
    + exists ("" :: init), l. by split.
    + destruct init as [|x init]; simpl.
      * exists [], (String c l). by split.
      * exists (String c x :: init), l. by split.
Qed.

Lemma split_on_plain_head sep c s :
  split_on sep (String c s) = [String c s] →
  Ascii.eqb c sep = false ∧ split_on sep s = [s].
Proof.
  simpl. destruct (Ascii.eqb c sep); [done |].
  destruct (split_on sep s) as [|x xs] eqn:E; [by apply split_on_nonnil in E |].
  intros [= -> ->]. done.
Qed.

End StringFacts.

(** ** Paths *)

Module PosixPathFacts.
Import PosixPath.

Example split_examples :
  map split ["a"; "/a/b/"; "a//b"; "//a"; ""; "/"; "/a/b"]
  = [("", "a"); ("/a/b", ""); ("a", "b"); ("//", "a"); ("", ""); ("/", "");
     ("/a", "b")].
Proof. reflexivity. Qed.

Example join_examples :
  [join "" ".catkin_tools"; join "/a/" "x"; join "/a" "/x"; join "/a" "x"]
  = [".catkin_tools"; "/a/x"; "/x"; "/a/x"].
Proof. reflexivity. Qed.

Example depth_examples : map depth ["/a//b/"; ""; "/"; "a"] = [2; 0; 0; 1].
Proof. reflexivity. Qed.

(** The upward walk stops at once on a path that ends with a separator,
    and ends at the empty path on a relative one. *)
Example upward_walk_examples :
  map upward_walk ["/a/b"; "/a/b/"; "a/b"]
  = [["/a/b"; "/a"; "/"]; ["/a/b/"]; ["a/b"; "a"; ""]].
Proof. reflexivity. Qed.

Lemma is_sep_true c : is_sep c = true → c = "/"%char.
Proof. apply Ascii.eqb_eq. Qed.

Lemma rpartition_app p : (rpartition p).1 +:+ (rpartition p).2 = p.
Proof.
  induction p as [|c p IH]; simpl; [done |].
  destruct (rpartition p) as [h t]; simpl in *.
  destruct (is_sep c || negb (is_empty h)) eqn:E; simpl.
  - by rewrite IH.
  - apply orb_false_iff in E as [_ E]. apply negb_false_iff, is_empty_true in E.
    subst h. by rewrite <- IH.
Qed.

(** The head is empty or ends with a separator. *)
Lemma rpartition_head p :
  (rpartition p).1 = "" ∨ ∃ h', (rpartition p).1 = h' +:+ "/".
Proof.
  induction p as [|c p IH]; simpl; [by left |].
  destruct (rpartition p) as [h t]; simpl in *.
  destruct (is_sep c || negb (is_empty h)) eqn:E; simpl; [| by left].
  right. destruct IH as [-> | [h' ->]].
  - simpl in E. rewrite orb_false_r in E. apply is_sep_true in E as ->.
    by exists "".
  - by exists (String c h').
Qed.

(** The tail holds no separator. *)
Lemma rpartition_tail p : components (rpartition p).2 = [(rpartition p).2].
Proof.
  unfold components. induction p as [|c p IH]; simpl; [done |].
  destruct (rpartition p) as [h t]; simpl in *.
  destruct (is_sep c || negb (is_empty h)) eqn:E; simpl; [done |].
  apply orb_false_iff in E as [E _]. unfold is_sep in E. rewrite E.
  by rewrite IH.
Qed.

Lemma rstrip_sep_spec s : ∃ r, s = rstrip_sep s +:+ r ∧ all_sep r = true.
Proof.
  induction s as [|c s (r & Hr & Hall)]; simpl; [by exists "" |].
  destruct (rstrip_sep s) as [|c' s'] eqn:E.
  - simpl in Hr. subst s. destruct (is_sep c) eqn:Hc.
    + exists (String c r). simpl. by rewrite Hc.
    + by exists r.
  - exists r. simpl. by rewrite Hr at 1.
Qed.

Lemma split_fst p :
  (split p).1 = (rpartition p).1 ∨ (split p).1 = rstrip_sep (rpartition p).1.
Proof.
  unfold split. destruct (rpartition p) as [h t]; simpl.
  destruct (negb (is_empty h) && negb (all_sep h)); auto.
Qed.

Lemma split_snd p : (split p).2 = (rpartition p).2.
Proof. unfold split. by destruct (rpartition p). Qed.

(** The head of a split is an initial segment of the path. *)
Lemma split_head_prefix p : string_prefix (split p).1 p.
Proof.
  pose proof (rpartition_app p) as Hp.
  destruct (split_fst p) as [-> | ->].
  - by exists (rpartition p).2.
  - destruct (rstrip_sep_spec (rpartition p).1) as (r & Hr & _).
    exists (r +:+ (rpartition p).2).
    rewrite <- app_assoc_str, <- Hr. done.
Qed.

Lemma split_tail_plain p : components (split p).2 = [(split p).2].
Proof. rewrite split_snd. apply rpartition_tail. Qed.

(** *** Depth *)

Lemma depth_app_sep a b : depth (a +:+ String "/" b) = depth a + depth b.
Proof.
  unfold depth, components. by rewrite split_on_app_sep, filter_app, length_app.
Qed.

Lemma depth_empty : depth "" = 0.
Proof. reflexivity. Qed.

Lemma depth_all_sep r : all_sep r = true → depth r = 0.
Proof.
  induction r as [|c r IH]; simpl; [done |].
  intros [Hc Hr]%andb_true_iff. apply is_sep_true in Hc as ->.
  change (String "/" r) with ("" +:+ String "/" r).
  rewrite depth_app_sep, IH; done.
Qed.

Lemma depth_app_all_sep a r : all_sep r = true → depth (a +:+ r) = depth a.
Proof.
  destruct r as [|c r]; simpl; [by rewrite app_empty_r |].
  intros [Hc Hr]%andb_true_iff. apply is_sep_true in Hc as ->.
  rewrite depth_app_sep, (depth_all_sep r); [lia | done].
Qed.

Lemma depth_plain t : components t = [t] → t ≠ "" → depth t = 1.
Proof.
  intros Ht Hne. unfold depth. rewrite Ht.
  by rewrite filter_cons_True.
Qed.

Lemma depth_rstrip_sep s : depth (rstrip_sep s) = depth s.
Proof.
  destruct (rstrip_sep_spec s) as (r & Hr & Hall).
  rewrite Hr at 2. by rewrite depth_app_all_sep.
Qed.

(** Each Continue of the loop strips exactly one named component. *)
Lemma split_depth p : (split p).2 ≠ "" → depth p = S (depth (split p).1).
Proof.
  intros Hne.
  pose proof (rpartition_app p) as Hp.
  pose proof (split_tail_plain p) as Ht.
  rewrite split_snd in *.
  assert (depth (split p).1 = depth (rpartition p).1) as ->.
  { destruct (split_fst p) as [-> | ->]; [done | apply depth_rstrip_sep]. }
  destruct (rpartition_head p) as [E | [h' E]]; rewrite E in *.
  - simpl in Hp. rewrite <- Hp at 1. by rewrite depth_plain.
  - rewrite <- Hp at 1. rewrite app_assoc_str. simpl.
    rewrite !depth_app_sep, depth_empty, (depth_plain _ Ht Hne). lia.
Qed.

End PosixPathFacts.

(** ** Workspace discovery *)

Section Discovery.
Import PosixPath PosixPathFacts.
Variable fs : filesystem.

Lemma get_paths_no_verb p : get_paths p None = (join p METADATA_DIR_NAME, None).
Proof. reflexivity. Qed.

Lemma length_zero_is_empty s : (String.length s =? 0)%nat = is_empty s.
Proof. by destruct s. Qed.

(** The loop body in terms of the specification's notions. *)
Lemma body_unfold p :
  find_enclosing_workspace_body fs p =
  if is_workspace fs p then Return (Some p)
  else if is_empty (split p).2 then Return None
  else Continue (split p).1.
Proof.
  unfold find_enclosing_workspace_body, is_workspace.
  rewrite get_paths_no_verb.
  destruct (split p) as [h t]; simpl. by rewrite length_zero_is_empty.
Qed.

Lemma loop_fuel_mono n m p r :
  find_enclosing_workspace_loop n fs p = Some r → n ≤ m →
  find_enclosing_workspace_loop m fs p = Some r.
Proof.
  revert m p. induction n as [|n IH]; intros m p Hn Hm; [done |].
  destruct m as [|m]; [lia |]. simpl in *.
  destruct (find_enclosing_workspace_body fs p); [done |].
  apply IH; [done | lia].
Qed.

(** With more fuel than the path has components the loop is the search
    for the first workspace on the upward walk. *)
Lemma loop_enough_fuel fuel p :
  depth p < fuel →
  find_enclosing_workspace_loop fuel fs p
  = Some (List.find (is_workspace fs) (upward_walk_from fuel p)).
Proof.
  revert p. induction fuel as [|fuel IH]; intros p Hd; [lia |].
  simpl. rewrite body_unfold.
  destruct (is_workspace fs p) eqn:Hw; [done |].
  pose proof (split_depth p) as Hs.
  destruct (split p) as [h t]; simpl in *.
  destruct (is_empty t) eqn:Ht; [done |].
  apply is_empty_false in Ht. apply IH. rewrite (Hs Ht) in Hd. lia.
Qed.

Lemma find_enclosing_workspace_find p :
  find_enclosing_workspace fs p = List.find (is_workspace fs) (upward_walk p).
Proof.
  unfold find_enclosing_workspace, upward_walk.
  by rewrite loop_enough_fuel by lia.
Qed.

Lemma loop_run_fuel p n q r :
  loop_run fs p n q r →
  ∀ fuel, n ≤ fuel → find_enclosing_workspace_loop fuel fs p = Some r.
Proof.
  induction 1 as [p r Hb | p p' n q r Hb _ IH]; intros fuel Hf;
    (destruct fuel as [|fuel]; [lia |]); simpl; rewrite Hb; [done |].
  apply IH. lia.
Qed.

(** Every start path has a finite run, of at most one pass more than it
    has named components. *)
Lemma loop_run_exists fuel p :
  depth p < fuel →
  ∃ n q r, loop_run fs p n q r ∧ n ≤ S (depth p)
           ∧ match r with
             | None => (split q).2 = "" ∧ is_workspace fs q = false
                       ∧ last (upward_walk_from fuel p) = Some q
             | Some c => c = q ∧ is_workspace fs q = true
             end.
Proof.
  revert p. induction fuel as [|fuel IH]; intros p Hd; [lia |].
  pose proof (body_unfold p) as Hb.
  destruct (is_workspace fs p) eqn:Hw.
  { exists 1, p, (Some p). split; [by constructor |]. split; [lia | done]. }
  simpl. destruct (split p) as [h t] eqn:Hsplit; simpl in *.
  destruct (is_empty t) eqn:Ht.
  { exists 1, p, None. split; [by constructor |]. split; [lia |].
    rewrite Hsplit. simpl. by apply is_empty_true in Ht. }
  apply is_empty_false in Ht.
  pose proof (split_depth p) as Hs. rewrite Hsplit in Hs. specialize (Hs Ht).
  simpl in Hs.
  destruct (IH h) as (n & q & r & Hrun & Hn & Hr); [lia |].
  exists (S n), q, r. split; [by eapply run_continue |]. split; [lia |].
  destruct r as [c|]; [done |]. destruct Hr as (? & ? & Hlast).
  split; [done |]. split; [done |].
  rewrite last_cons. by rewrite Hlast.
Qed.

Lemma upward_walk_from_prefix fuel p q :
  q ∈ upward_walk_from fuel p → string_prefix q p.
Proof.
  revert p. induction fuel as [|fuel IH]; intros p; simpl; [by intros ?%elem_of_nil |].
  pose proof (split_head_prefix p) as [r Hr].
  destruct (split p) as [h t]; simpl in *.
  intros [-> | Hq]%elem_of_cons; [exists ""; by rewrite app_empty_r |].
  destruct (is_empty t); [by apply elem_of_nil in Hq |].
  destruct (IH _ Hq) as [r' ->]. exists (r' +:+ r).
  by rewrite Hr, app_assoc_str.
Qed.

Lemma upward_walk_from_length fuel p :
  List.length (upward_walk_from fuel p) ≤ S (depth p).
Proof.
  revert p. induction fuel as [|fuel IH]; intros p; simpl; [lia |].
  pose proof (split_depth p) as Hs.
  destruct (split p) as [h t]; simpl in *.
  destruct (is_empty t) eqn:Ht; simpl; [lia |].
  apply is_empty_false in Ht. rewrite (Hs Ht). specialize (IH h). lia.
Qed.

End Discovery.

(** ** Normalised absolute paths *)

Section NormalisedPaths.
Import PosixPath PosixPathFacts.

Lemma below_snoc base cs c :
  below base (cs ++ [c]) = below base cs +:+ "/" +:+ c.
Proof. revert base. induction cs as [|x cs IH]; intros base; simpl; [done | apply IH]. Qed.

Lemma absolute_snoc cs c : absolute (cs ++ [c]) = below "" cs +:+ "/" +:+ c.
Proof. rewrite <- below_snoc. by destruct cs. Qed.

Lemma below_nonempty base cs :
  is_empty base = false → is_empty (below base cs) = false.
Proof.
  revert base. induction cs as [|c cs IH]; intros base Hb; simpl; [done |].
  apply IH. by destruct base.
Qed.

Lemma absolute_nonempty cs : absolute cs ≠ "".
Proof.
  apply is_empty_false. destruct cs as [|c cs]; [done |].
  simpl. by apply below_nonempty.
Qed.

Lemma prefixes_snoc cs c : prefixes (cs ++ [c]) = prefixes cs ++ [cs ++ [c]].
Proof.
  induction cs as [|x cs IH]; simpl; [done |].
  f_equal. by rewrite IH, map_app.
Qed.

Lemma rpartition_plain c : components c = [c] → rpartition c = ("", c).
Proof.
  induction c as [|x c IH]; [done |].
  intros [Hx Hc]%split_on_plain_head. simpl. rewrite (IH Hc). simpl.
  unfold is_sep. by rewrite Hx.
Qed.

Lemma rpartition_app_sep a c :
  components c = [c] → rpartition (a +:+ String "/" c) = (a +:+ "/", c).
Proof.
  intros Hc. induction a as [|x a IH]; simpl.
  - by rewrite (rpartition_plain c Hc).
  - rewrite IH. replace (is_empty (a +:+ "/")) with false by by destruct a.
    by rewrite orb_true_r.
Qed.

Lemma rstrip_sep_app_sep s : rstrip_sep (s +:+ "/") = rstrip_sep s.
Proof. induction s as [|x s IH]; simpl; [done | by rewrite IH]. Qed.

Lemma rstrip_sep_plain c : components c = [c] → rstrip_sep c = c.
Proof.
  induction c as [|x c IH]; [done |].
  intros [Hx Hc]%split_on_plain_head. simpl. rewrite (IH Hc).
  destruct c; [| done]. unfold is_sep. by rewrite Hx.
Qed.

Lemma rstrip_sep_app_plain s c :
  plain_component c → rstrip_sep (s +:+ c) = s +:+ c.
Proof.
  intros [Hne Hc]. induction s as [|x s IH]; simpl.
  - by apply rstrip_sep_plain.
  - rewrite IH. destruct (s +:+ c) eqn:E; [| done].
    destruct s; [done | discriminate].
Qed.

Lemma all_sep_app a b : all_sep (a +:+ b) = all_sep a && all_sep b.
Proof.
  induction a as [|x a IH]; simpl; [done |]. by rewrite IH, andb_assoc.
Qed.

Lemma all_sep_plain c : plain_component c → all_sep c = false.
Proof.
  intros [Hne Hc]. destruct c as [|x c]; [done |].
  apply split_on_plain_head in Hc as [Hx _]. simpl. unfold is_sep. by rewrite Hx.
Qed.

(** The split of a normalised absolute path gives its parent and its last
    component. *)
Lemma split_absolute_snoc cs c :
  Forall plain_component cs → plain_component c →
  split (absolute (cs ++ [c])) = (absolute cs, c).
Proof.
  intros Hcs Hc. pose proof Hc as [_ Hplain].
  rewrite absolute_snoc. unfold split.
  assert (below "" cs +:+ "/" +:+ c = below "" cs +:+ String "/" c) as -> by done.
  rewrite (rpartition_app_sep _ _ Hplain). f_equal.
  destruct cs as [|c0 cs0 _] using rev_ind; [done |].
  apply Forall_app in Hcs as [_ [Hc0 _]%Forall_cons].
  assert (absolute (cs0 ++ [c0]) = below "" (cs0 ++ [c0])) as ->
    by by destruct cs0.
  rewrite below_snoc.
  assert (below "" cs0 +:+ "/" +:+ c0 = (below "" cs0 +:+ "/") +:+ c0) as ->
    by by rewrite app_assoc_str.
  rewrite !all_sep_app, (all_sep_plain c0 Hc0), andb_false_r. simpl.
  replace (is_empty (((below "" cs0 +:+ "/") +:+ c0) +:+ "/")) with false
    by by destruct (below "" cs0).
  simpl. rewrite rstrip_sep_app_sep. by apply rstrip_sep_app_plain.
Qed.

Lemma depth_absolute cs : Forall plain_component cs → depth (absolute cs) = List.length cs.
Proof.
  induction cs as [|c cs IH] using rev_ind; [done |].
  intros [Hcs [[Hne Hc] _]%Forall_cons]%Forall_app.
  pose proof (split_depth (absolute (cs ++ [c]))) as Hd.
  rewrite split_absolute_snoc in Hd by done. simpl in Hd.
  rewrite (Hd Hne), IH, length_app by done. simpl. lia.
Qed.

(** The upward walk from a normalised absolute path visits the path and
    each of its ancestors in turn, the root last. *)
Lemma upward_walk_from_absolute cs fuel :
  Forall plain_component cs → List.length cs < fuel →
  upward_walk_from fuel (absolute cs) = map absolute (reverse (prefixes cs)).
Proof.
  revert fuel. induction cs as [|c cs IH] using rev_ind; intros fuel Hcs Hfuel.
  - destruct fuel; [lia | done].
  - apply Forall_app in Hcs as [Hcs [Hc _]%Forall_cons].
    rewrite length_app in Hfuel. simpl in Hfuel.
    destruct fuel as [|fuel]; [lia |]. simpl upward_walk_from.
    rewrite split_absolute_snoc by done.
    destruct Hc as [Hne _]. apply is_empty_false in Hne. rewrite Hne.
    rewrite IH by (done || lia).
    by rewrite prefixes_snoc, reverse_snoc.
Qed.

Lemma upward_walk_absolute cs :
  Forall plain_component cs →
  upward_walk (absolute cs) = map absolute (reverse (prefixes cs)).
Proof.
  intros Hcs. unfold upward_walk.
  apply upward_walk_from_absolute; [done |]. rewrite depth_absolute by done. lia.
Qed.

Lemma upward_walk_absolute_last cs :
  Forall plain_component cs → last (upward_walk (absolute cs)) = Some "/".
Proof.
  intros Hcs. rewrite upward_walk_absolute by done.
  destruct cs; simpl; [done |].
  rewrite reverse_cons, map_app. simpl. by rewrite last_snoc.
Qed.

End NormalisedPaths.

(** What [List.find] finds is the first element that passes the test. *)
Lemma find_first {A} (f : A → bool) (l : list A) c :
  List.find f l = Some c →
  ∃ l1 l2, l = l1 ++ c :: l2 ∧ f c = true ∧ Forall (λ x, f x = false) l1.
Proof.
  induction l as [|x l IH]; simpl; [done |].
  destruct (f x) eqn:Hx.
  - intros [= ->]. by exists [], l.
  - intros (l1 & l2 & -> & Hc & Hl1)%IH. exists (x :: l1), l2. auto.
Qed.

Lemma find_none_iff {A} (f : A → bool) (l : list A) :
  List.find f l = None ↔ ∀ x, x ∈ l → f x = false.
Proof.
  induction l as [|x l IH]; simpl.
  - split; [by intros _ ? ?%elem_of_nil | done].
  - destruct (f x) eqn:Hx.
    + split; [done |]. intros Hall. rewrite Hall in Hx; [done | by left].
    + rewrite IH. split.
      * intros Hall y [-> | Hy]%elem_of_cons; auto.
      * intros Hall y Hy. apply Hall. by right.
Qed.

(** ** The filesystem *)

Section FilesystemFacts.
Import PosixPath PosixPathFacts.

Lemma walk_app fs k cs1 cs2 :
  walk fs k (cs1 ++ cs2)
  = match walk fs k cs1 with
    | inl e => inl e
    | inr k' => walk fs k' cs2
    end.
Proof.
  revert k. induction cs1 as [|c cs1 IH]; intros k; simpl; [done |].
  destruct (node_at fs k) as [[|]|]; [| done | done].
  repeat case_decide; apply IH.
Qed.

Lemma walk_name fs k n :
  plain_name n →
  walk fs k [n]
  = match node_at fs k with
    | Some Dir => inr (k ++ [n])
    | Some (File _) => inl ENOTDIR
    | None => inl ENOENT
    end.
Proof.
  intros (H1 & H2 & H3 & _). simpl.
  destruct (node_at fs k) as [[|]|]; [| done | done].
  rewrite decide_False by (intros [|]; done). by rewrite decide_False.
Qed.

Lemma walk_empty_component fs k :
  walk fs k [""]
  = match node_at fs k with
    | Some Dir => inr k
    | Some (File _) => inl ENOTDIR
    | None => inl ENOENT
    end.
Proof. simpl. by destruct (node_at fs k) as [[|]|]. Qed.

Lemma endswith_sep_inv w : endswith_sep w = true → ∃ w', w = w' +:+ "/".
Proof.
  induction w as [|c w IH]; simpl; [done |].
  destruct w as [|c' w].
  - intros ->%is_sep_true. by exists "".
  - intros [w' ->]%IH. by exists (String c w').
Qed.

Lemma startswith_sep_app a b :
  is_empty a = false → startswith_sep (a +:+ b) = startswith_sep a.
Proof. by destruct a. Qed.

Lemma plain_no_leading_sep n : components n = [n] → startswith_sep n = false.
Proof.
  destruct n as [|c n]; [done |].
  by intros [? _]%split_on_plain_head.
Qed.

(** Resolution of [join w n] for an entry name [n]: [w] is resolved and
    must be a directory. *)
Lemma resolve_join fs w n :
  plain_name n → is_empty w = false →
  resolve fs (join w n)
  = match resolve fs w with
    | inl e => inl e
    | inr k =>
        match node_at fs k with
        | Some Dir => inr (k ++ [n])
        | Some (File _) => inl ENOTDIR
        | None => inl ENOENT
        end
    end.
Proof.
  intros Hn Hw. pose proof Hn as (_ & _ & _ & Hc).
  unfold resolve, join.
  rewrite (plain_no_leading_sep n Hc), Hw. simpl.
  destruct (endswith_sep w) eqn:Hend.
  - apply endswith_sep_inv in Hend as [w' ->].
    assert ((w' +:+ "/") +:+ n = w' +:+ String "/" n) as ->
      by by rewrite app_assoc_str.
    assert (is_empty (w' +:+ String "/" n) = false) as -> by by destruct w'.
    assert (startswith_sep (w' +:+ String "/" n) = startswith_sep (w' +:+ "/")) as ->
      by by destruct w'.
    unfold components. rewrite !split_on_app_sep.
    fold (components n). rewrite Hc. simpl (split_on _ "").
    rewrite !walk_app.
    destruct (walk fs _ (split_on "/" w')) as [e | k]; [done |].
    rewrite walk_empty_component, walk_name by done.
    by destruct (node_at fs k) as [[|]|] eqn:Hk; rewrite ?Hk.
  - rewrite is_empty_app, startswith_sep_app by done.
    unfold components. rewrite split_on_app_sep.
    fold (components n). rewrite Hc, walk_app.
    destruct (walk fs _ (split_on "/" w)) as [e | k]; [done |].
    by rewrite walk_name.
Qed.

Lemma resolve_nonempty fs p k : resolve fs p = inr k → is_empty p = false.
Proof. unfold resolve. by destruct (is_empty p). Qed.

(** The location a path resolves to does not depend on the contents of
    the filesystem. *)
Lemma walk_key_indep fs fs' k0 cs k k' :
  walk fs k0 cs = inr k → walk fs' k0 cs = inr k' → k = k'.
Proof.
  revert k0. induction cs as [|c cs IH]; intros k0; simpl; [congruence |].
  destruct (node_at fs k0) as [[|]|]; [| done | done].
  destruct (node_at fs' k0) as [[|]|]; [| done | done].
  repeat case_decide; apply IH.
Qed.

Lemma resolve_key_indep fs fs' p k k' :
  cwd fs' = cwd fs →
  resolve fs p = inr k → resolve fs' p = inr k' → k = k'.
Proof.
  unfold resolve. intros ->. destruct (is_empty p); [done |].
  apply walk_key_indep.
Qed.

Lemma walk_mono fs fs' k0 cs k :
  dirs_kept fs fs' → walk fs k0 cs = inr k → walk fs' k0 cs = inr k.
Proof.
  intros [_ Hd]. revert k0. induction cs as [|c cs IH]; intros k0; simpl; [done |].
  destruct (node_at fs k0) as [[|]|] eqn:Hk; [| done | done].
  rewrite (Hd _ Hk). repeat case_decide; apply IH.
Qed.

Lemma resolve_mono fs fs' p k :
  dirs_kept fs fs' → resolve fs p = inr k → resolve fs' p = inr k.
Proof.
  intros Hd. unfold resolve. destruct Hd as [Hc Hd'] eqn:E. rewrite Hc.
  destruct (is_empty p); [done |]. apply walk_mono. by split.
Qed.

Lemma dirs_kept_refl fs : dirs_kept fs fs.
Proof. by split. Qed.

Lemma dirs_kept_trans fs1 fs2 fs3 :
  dirs_kept fs1 fs2 → dirs_kept fs2 fs3 → dirs_kept fs1 fs3.
Proof. intros [H1 H1'] [H2 H2']. split; [congruence | auto]. Qed.

Lemma node_at_set_node k n fs k' :
  k ≠ [] →
  node_at (set_node k n fs) k' = if decide (k = k') then Some n else node_at fs k'.
Proof.
  intros Hk. unfold node_at, set_node; simpl.
  destruct k' as [|x k'].
  - by rewrite decide_False.
  - rewrite lookup_insert. by repeat case_decide.
Qed.

Lemma set_node_dirs_kept k n fs :
  k ≠ [] → node_at fs k ≠ Some Dir ∨ n = Dir →
  dirs_kept fs (set_node k n fs).
Proof.
  intros Hk Hn. split; [done |]. intros k' Hk'.
  rewrite node_at_set_node by done. case_decide; [| done].
  subst k'. destruct Hn as [Hn | ->]; [done | done].
Qed.

Lemma app_neq_nil (k : list string) n : k ++ [n] ≠ [].
Proof. by destruct k. Qed.

(** *** Limits *)

Lemma has_nul_app a b : has_nul (a +:+ b) = has_nul a || has_nul b.
Proof.
  induction a as [|x a IH]; simpl; [done |]. by rewrite IH, orb_assoc.
Qed.

Lemma sys_walk_inr fs k cs k' :
  sys_walk fs k cs = inr k'
  ↔ forallb (λ c, String.length c <=? NAME_MAX) cs = true
    ∧ walk fs k cs = inr k'.
Proof.
  revert k. induction cs as [|c cs IH]; intros k; simpl.
  { split; [by intros ? | by intros [_ ?]]. }
  destruct (node_at fs k) as [[|]|];
    [| split; [done | by intros [_ ?]] | split; [done | by intros [_ ?]]].
  destruct (decide (c = "" ∨ c = ".")) as [[-> | ->] | Hc];
    [apply IH | apply IH |].
  destruct (decide (c = "..")) as [-> | Hc']; [apply IH |].
  destruct (Nat.ltb_spec NAME_MAX (String.length c)) as [Hlong | Hshort].
  - replace (String.length c <=? NAME_MAX) with false
      by (symmetry; apply Nat.leb_gt; lia).
    split; [done | by intros [? _]].
  - replace (String.length c <=? NAME_MAX) with true
      by (symmetry; apply Nat.leb_le; lia).
    apply IH.
Qed.

(** A call finds a location exactly when the path is within the limits and
    names the location. *)
Lemma locate_inr fs p k :
  locate fs p = inr k ↔ path_ok p = true ∧ resolve fs p = inr k.
Proof.
  unfold locate, path_ok, sys_resolve, resolve.
  destruct (has_nul p); [split; [done | by intros [? _]] |].
  destruct (is_empty p); [split; [done | by intros [_ ?]] |].
  destruct (Nat.leb_spec PATH_MAX (String.length p)) as [Hlong | Hshort].
  - replace (String.length p <? PATH_MAX) with false
      by (symmetry; apply Nat.ltb_ge; lia).
    split; [done | by intros [? _]].
  - replace (String.length p <? PATH_MAX) with true
      by (symmetry; apply Nat.ltb_lt; lia).
    cbn [negb andb].
    destruct (sys_walk fs _ (components p)) as [e | k0] eqn:Hw.
    + split; [done |]. intros [Hok Hr].
      assert (sys_walk fs (if startswith_sep p then [] else cwd fs)
                (components p) = inr k) as Hw' by by apply sys_walk_inr.
      congruence.
    + apply sys_walk_inr in Hw as [Hok Hr]. rewrite Hok, Hr.
      split; [by intros [= ->] | by intros [_ [= ->]]].
Qed.

Lemma locate_resolve fs p k : locate fs p = inr k → resolve fs p = inr k.
Proof. by intros [_ ?]%locate_inr. Qed.

Lemma locate_path_ok fs p k : locate fs p = inr k → path_ok p = true.
Proof. by intros [? _]%locate_inr. Qed.

Lemma locate_nonempty fs p k : locate fs p = inr k → is_empty p = false.
Proof. intros Hl%locate_resolve. by eapply resolve_nonempty. Qed.

Lemma locate_not_ok fs p : path_ok p = false → ∃ e, locate fs p = inl e.
Proof.
  intros Hok. destruct (locate fs p) as [e | k] eqn:Hl; [by exists e |].
  apply locate_path_ok in Hl. congruence.
Qed.

Lemma locate_mono fs fs' p k :
  dirs_kept fs fs' → locate fs p = inr k → locate fs' p = inr k.
Proof.
  intros Hkept [Hok Hr]%locate_inr. apply locate_inr.
  split; [done | by eapply resolve_mono].
Qed.

Lemma locate_key_indep fs fs' p k k' :
  cwd fs' = cwd fs →
  locate fs p = inr k → locate fs' p = inr k' → k = k'.
Proof.
  intros Hcwd [_ Hr]%locate_inr [_ Hr']%locate_inr.
  by eapply resolve_key_indep.
Qed.

(** The limits pass from [join w n] to [w]. *)
Lemma join_entry w n :
  plain_name n → is_empty w = false →
  ∃ w0, join w n = w0 +:+ String "/" n ∧ (w = w0 ∨ w = w0 +:+ "/").
Proof.
  intros (_ & _ & _ & Hc) Hw. unfold join.
  rewrite (plain_no_leading_sep n Hc), Hw. cbn [orb].
  destruct (endswith_sep w) eqn:Hend.
  - apply endswith_sep_inv in Hend as [w' ->]. exists w'.
    split; [by rewrite app_assoc_str | by right].
  - exists w. split; [done | by left].
Qed.

Lemma path_ok_join_inv w n :
  plain_name n → is_empty w = false →
  path_ok (join w n) = true → path_ok w = true.
Proof.
  intros Hn Hw Hok. destruct (join_entry w n Hn Hw) as (w0 & Hj & Hw0).
  rewrite Hj in Hok. unfold path_ok in *.
  apply andb_true_iff in Hok as [[Hnul Hlen]%andb_true_iff Hcs].
  rewrite has_nul_app in Hnul.
  apply negb_true_iff, orb_false_iff in Hnul as [Hnul _].
  apply Nat.ltb_lt in Hlen. rewrite length_app_str in Hlen.
  unfold components in *. rewrite split_on_app_sep, forallb_app in Hcs.
  apply andb_true_iff in Hcs as [Hcs _].
  destruct Hw0 as [-> | ->].
  - rewrite Hnul, Hcs.
    replace (String.length w0 <? PATH_MAX) with true
      by (symmetry; apply Nat.ltb_lt; lia).
    done.
  - rewrite has_nul_app, Hnul, length_app_str, split_on_app_sep, forallb_app, Hcs.
    replace (String.length w0 + String.length "/" <? PATH_MAX) with true
      by (symmetry; apply Nat.ltb_lt;
          change (String.length (String "/" n)) with (S (String.length n)) in Hlen;
          change (String.length "/") with 1; lia).
    done.
Qed.

(** A call on [join w n], for an entry name [n]. *)
Lemma locate_join fs w n k :
  plain_name n →
  locate fs w = inr k → node_at fs k = Some Dir →
  path_ok (join w n) = true →
  locate fs (join w n) = inr (k ++ [n]).
Proof.
  intros Hn [_ Hr]%locate_inr Hk Hok. apply locate_inr. split; [done |].
  rewrite resolve_join, Hr, Hk; eauto using resolve_nonempty.
Qed.

Lemma locate_join_inv fs w n kk :
  plain_name n → is_empty w = false →
  locate fs (join w n) = inr kk →
  ∃ k, locate fs w = inr k ∧ node_at fs k = Some Dir ∧ kk = k ++ [n].
Proof.
  intros Hn Hw [Hok Hr]%locate_inr.
  rewrite resolve_join in Hr by done.
  destruct (resolve fs w) as [e | k] eqn:Hrw; [done |].
  destruct (node_at fs k) as [[|]|] eqn:Hk; [| done | done].
  injection Hr as <-. exists k. split; [| done].
  apply locate_inr. split; [by eapply path_ok_join_inv | done].
Qed.

(** *** The primitives at a location *)

Lemma os_stat_at fs p k :
  locate fs p = inr k →
  os_stat fs p = match node_at fs k with
                 | Some n => inr n
                 | None => inl (OSError ENOENT p)
                 end.
Proof. unfold os_stat. by intros ->. Qed.

Lemma path_exists_at fs p k :
  locate fs p = inr k →
  path_exists fs p = match node_at fs k with Some _ => true | None => false end.
Proof.
  intros Hr. unfold path_exists. rewrite (os_stat_at _ _ _ Hr).
  by destruct (node_at fs k).
Qed.

Lemma path_isdir_at fs p k :
  locate fs p = inr k →
  path_isdir fs p = match node_at fs k with Some Dir => true | _ => false end.
Proof.
  intros Hr. unfold path_isdir. rewrite (os_stat_at _ _ _ Hr).
  by destruct (node_at fs k) as [[|]|].
Qed.

Lemma path_exists_unlocated fs p e :
  locate fs p = inl e → path_exists fs p = false.
Proof. unfold path_exists, os_stat. by intros ->. Qed.

Lemma path_exists_inv fs p :
  path_exists fs p = true → ∃ k n, locate fs p = inr k ∧ node_at fs k = Some n.
Proof.
  unfold path_exists, os_stat.
  destruct (locate fs p) as [e | k]; [done |].
  destruct (node_at fs k) as [n |] eqn:Hk; [| done].
  by exists k, n.
Qed.

Lemma path_isdir_inv fs p :
  path_isdir fs p = true → ∃ k, locate fs p = inr k ∧ node_at fs k = Some Dir.
Proof.
  unfold path_isdir, os_stat.
  destruct (locate fs p) as [e | k]; [done |].
  destruct (node_at fs k) as [[|]|] eqn:Hk; [| done | done].
  by exists k.
Qed.

Lemma path_isdir_exists fs p : path_isdir fs p = true → path_exists fs p = true.
Proof.
  unfold path_isdir, path_exists. by destruct (os_stat fs p) as [|[|]].
Qed.

Lemma os_mkdir_new fs p k :
  locate fs p = inr k → node_at fs k = None →
  os_mkdir p fs = (Returned tt, set_node k Dir fs).
Proof. unfold os_mkdir. by intros -> ->. Qed.

Lemma shutil_rmtree_dir fs p k :
  locate fs p = inr k → node_at fs k = Some Dir →
  shutil_rmtree p fs = (Returned tt, remove_tree k fs).
Proof. unfold shutil_rmtree. by intros -> ->. Qed.

Lemma write_file_at fs p k text :
  locate fs p = inr k → node_at fs k ≠ Some Dir →
  write_file (Some p) text fs = (Returned tt, set_node k (File text) fs).
Proof.
  unfold write_file. intros -> Hk.
  by destruct (node_at fs k) as [[|]|].
Qed.

Lemma read_file_at fs p k text :
  locate fs p = inr k → node_at fs k = Some (File text) →
  read_file (Some p) fs = (Returned text, fs).
Proof.
  intros Hr Hk. unfold read_file. by rewrite (os_stat_at _ _ _ Hr), Hk.
Qed.

End FilesystemFacts.

(** ** Initialisation of the metadata directory *)

Section Initialisation.
Import PosixPath PosixPathFacts.

Lemma bind_returned {A B} (m : M A) (k : A → M B) fs a fs' :
  m fs = (Returned a, fs') → bind m k fs = k a fs'.
Proof. unfold bind. by intros ->. Qed.

Lemma bind_raised {A B} (m : M A) (k : A → M B) fs e fs' :
  m fs = (Raised e, fs') → bind m k fs = (Raised e, fs').
Proof. unfold bind. by intros ->. Qed.

Lemma plain_name_metadata_dir : plain_name METADATA_DIR_NAME.
Proof. by repeat split. Qed.

Lemma plain_name_readme : plain_name "README".
Proof. by repeat split. Qed.

(** The three stages of [init_metadata_dir]: the existence check, the
    nesting check, and the creation or reset followed by the README. *)
Lemma init_metadata_dir_unfold w reset fs :
  init_metadata_dir w reset fs =
  if negb (path_exists fs w)
  then (Raised (IOError (not_exist_message w)), fs)
  else if str_truthy (find_enclosing_workspace fs w)
          && negb (bool_decide (find_enclosing_workspace fs w = Some w))
  then (Raised (IOError (nested_message w
                           (py_str (find_enclosing_workspace fs w)))), fs)
  else
    bind (if path_exists fs (join w METADATA_DIR_NAME)
          then (if reset
                then bind (shutil_rmtree (join w METADATA_DIR_NAME))
                       (λ _, os_mkdir (join w METADATA_DIR_NAME))
                else ret tt)
          else os_mkdir (join w METADATA_DIR_NAME))
      (λ _, write_file (Some (join (join w METADATA_DIR_NAME) "README"))
              METADATA_README_TEXT) fs.
Proof.
  unfold init_metadata_dir, bind at 1, gets.
  destruct (negb (path_exists fs w)); [done |].
  unfold bind at 1.
  destruct (str_truthy _ && _); [done |].
  rewrite get_paths_no_verb. unfold bind at 1.
  by destruct (path_exists fs (join w METADATA_DIR_NAME)).
Qed.

(** The nesting error is raised when discovery returns a non-empty path
    other than the workspace path; the filesystem stays as it was. *)
Lemma init_metadata_dir_nested w reset fs m :
  path_exists fs w = true →
  find_enclosing_workspace fs w = Some m → m ≠ "" → m ≠ w →
  init_metadata_dir w reset fs = (Raised (IOError (nested_message w m)), fs).
Proof.
  intros Hex Hm Hne Hw. rewrite init_metadata_dir_unfold, Hex, Hm. simpl.
  apply is_empty_false in Hne. rewrite Hne. simpl.
  rewrite bool_decide_false by congruence. done.
Qed.

(** No nesting error when discovery finds nothing, the workspace path
    itself, or the empty path: the checks are passed and the creation
    stage is entered. *)
Lemma init_metadata_dir_passes w reset fs :
  path_exists fs w = true →
  find_enclosing_workspace fs w = None
  ∨ find_enclosing_workspace fs w = Some w
  ∨ find_enclosing_workspace fs w = Some "" →
  init_metadata_dir w reset fs =
    bind (if path_exists fs (join w METADATA_DIR_NAME)
          then (if reset
                then bind (shutil_rmtree (join w METADATA_DIR_NAME))
                       (λ _, os_mkdir (join w METADATA_DIR_NAME))
                else ret tt)
          else os_mkdir (join w METADATA_DIR_NAME))
      (λ _, write_file (Some (join (join w METADATA_DIR_NAME) "README"))
              METADATA_README_TEXT) fs.
Proof.
  intros Hex Hm. rewrite init_metadata_dir_unfold, Hex.
  destruct Hm as [-> | [-> | ->]]; [reflexivity | | reflexivity].
  case_bool_decide; [| done].
  by destruct (str_truthy (Some w)).
Qed.

Lemma resolve_metadata_dir fs w k :
  resolve fs w = inr k → node_at fs k = Some Dir →
  resolve fs (join w METADATA_DIR_NAME) = inr (k ++ [METADATA_DIR_NAME]).
Proof.
  intros Hr Hk.
  rewrite resolve_join, Hr, Hk;
    eauto using plain_name_metadata_dir, resolve_nonempty.
Qed.

Lemma resolve_in_metadata_dir fs w k n :
  plain_name n →
  resolve fs w = inr k → node_at fs k = Some Dir →
  node_at fs (k ++ [METADATA_DIR_NAME]) = Some Dir →
  resolve fs (join (join w METADATA_DIR_NAME) n)
  = inr ((k ++ [METADATA_DIR_NAME]) ++ [n]).
Proof.
  intros Hn Hr Hk Hmd.
  pose proof (resolve_metadata_dir _ _ _ Hr Hk) as Hrmd.
  rewrite resolve_join, Hrmd, Hmd; eauto using resolve_nonempty.
Qed.

(** A workspace is found at once. *)
Lemma find_enclosing_workspace_self fs w :
  is_workspace fs w = true → find_enclosing_workspace fs w = Some w.
Proof.
  intros Hw. rewrite find_enclosing_workspace_find.
  unfold upward_walk. simpl. by rewrite Hw.
Qed.

Lemma locate_of_resolve fs p k :
  path_ok p = true → resolve fs p = inr k → locate fs p = inr k.
Proof. intros Hok Hr. by apply locate_inr. Qed.

Lemma join_nonempty a b : is_empty b = false → is_empty (join a b) = false.
Proof.
  intros Hb. unfold join. destruct (startswith_sep b); [done |].
  destruct (is_empty a || endswith_sep a); destruct a; done.
Qed.

(** The limits pass from the README path to the metadata directory path and
    to the workspace path. *)
Lemma path_ok_metadata_dir w n :
  plain_name n → is_empty w = false →
  path_ok (join (join w METADATA_DIR_NAME) n) = true →
  path_ok (join w METADATA_DIR_NAME) = true ∧ path_ok w = true.
Proof.
  intros Hn Hw Hok.
  assert (path_ok (join w METADATA_DIR_NAME) = true) as Hmd.
  { eapply path_ok_join_inv; [done | by apply join_nonempty | done]. }
  split; [done |].
  eapply path_ok_join_inv; [apply plain_name_metadata_dir | done | done].
Qed.

Lemma locate_metadata_dir fs w k :
  locate fs w = inr k → node_at fs k = Some Dir →
  path_ok (join w METADATA_DIR_NAME) = true →
  locate fs (join w METADATA_DIR_NAME) = inr (k ++ [METADATA_DIR_NAME]).
Proof.
  intros Hl Hk Hok. by apply locate_join; [apply plain_name_metadata_dir | | |].
Qed.

Lemma locate_in_metadata_dir fs w k n :
  plain_name n →
  locate fs w = inr k → node_at fs k = Some Dir →
  node_at fs (k ++ [METADATA_DIR_NAME]) = Some Dir →
  path_ok (join (join w METADATA_DIR_NAME) n) = true →
  locate fs (join (join w METADATA_DIR_NAME) n)
  = inr ((k ++ [METADATA_DIR_NAME]) ++ [n]).
Proof.
  intros Hn Hl Hk Hmd Hok. apply locate_inr. split; [done |].
  apply resolve_in_metadata_dir; eauto using locate_resolve.
Qed.

Lemma is_workspace_at fs w k :
  locate fs (join w METADATA_DIR_NAME) = inr (k ++ [METADATA_DIR_NAME]) →
  is_workspace fs w
  = match node_at fs (k ++ [METADATA_DIR_NAME]) with
    | Some Dir => true
    | _ => false
    end.
Proof.
  intros Hrmd. unfold is_workspace.
  rewrite (path_exists_at _ _ _ Hrmd), (path_isdir_at _ _ _ Hrmd).
  destruct (node_at fs (k ++ [METADATA_DIR_NAME])) as [[|]|]; reflexivity.
Qed.

End Initialisation.

(** ** Discovery on normalised absolute paths

    Where the start path is the normalised absolute path of a directory,
    the search paths of the loop are the directory and its ancestors, and
    the loop returns the closest workspace among them. *)

Section ClosestWorkspace.
Import PosixPath PosixPathFacts.

Lemma endswith_sep_plain c : components c = [c] → c ≠ "" → endswith_sep c = false.
Proof.
  induction c as [|x c IH]; [done |].
  intros [Hx Hc]%split_on_plain_head _. simpl.
  destruct c as [|y c]; [done |]. by apply IH.
Qed.

Lemma endswith_sep_app_plain s c :
  plain_component c → endswith_sep (s +:+ c) = false.
Proof.
  intros [Hne Hc]. induction s as [|x s IH]; simpl.
  - by apply endswith_sep_plain.
  - destruct (s +:+ c) eqn:E; [| done].
    destruct s; [done | discriminate].
Qed.

Lemma plain_name_component n : plain_name n → plain_component n.
Proof. by intros (? & _ & _ & ?). Qed.

(** The path of an entry of a directory is the join of the directory's
    path and the entry's name. *)
Lemma absolute_join cs c :
  Forall plain_component cs → plain_name c →
  absolute (cs ++ [c]) = join (absolute cs) c.
Proof.
  intros Hcs (_ & _ & _ & Hplain).
  rewrite absolute_snoc. unfold join.
  rewrite (plain_no_leading_sep c Hplain).
  destruct cs as [|x cs _] using rev_ind; [done |].
  apply Forall_app in Hcs as [_ [Hx _]%Forall_cons].
  rewrite absolute_snoc, below_snoc.
  assert (is_empty (below "" cs +:+ "/" +:+ x) = false) as ->
    by by destruct (below "" cs).
  assert (endswith_sep (below "" cs +:+ "/" +:+ x) = false) as ->.
  { rewrite <- app_assoc_str. by apply endswith_sep_app_plain. }
  done.
Qed.

(** A normalised absolute path leads to the location its components
    spell. *)
Lemma located_absolute fs cs k :
  Forall plain_name cs → locate fs (absolute cs) = inr k → k = cs.
Proof.
  revert k. induction cs as [|c cs IH] using rev_ind; intros k Hcs Hl.
  - apply locate_resolve in Hl. vm_compute in Hl. by injection Hl.
  - apply Forall_app in Hcs as [Hcs [Hc _]%Forall_cons].
    rewrite absolute_join in Hl
      by (done || by eapply Forall_impl; [| apply plain_name_component]).
    apply locate_join_inv in Hl as (k0 & Hl0 & _ & ->);
      [| done | by apply is_empty_false, absolute_nonempty].
    by rewrite (IH k0).
Qed.

(** The limits, for a path that ends in an entry name. *)
Lemma path_ok_entry w0 n :
  path_ok (w0 +:+ String "/" n) = true
  ↔ has_nul w0 = false ∧ has_nul n = false
    ∧ String.length w0 + S (String.length n) < PATH_MAX
    ∧ forallb (λ c, String.length c <=? NAME_MAX) (components w0) = true
    ∧ forallb (λ c, String.length c <=? NAME_MAX) (components n) = true.
Proof.
  unfold path_ok, components.
  rewrite has_nul_app, length_app_str, split_on_app_sep, forallb_app.
  change (has_nul (String "/" n)) with (has_nul n).
  change (String.length (String "/" n)) with (S (String.length n)).
  rewrite !andb_true_iff, negb_true_iff, orb_false_iff, Nat.ltb_lt. tauto.
Qed.

Lemma path_ok_below_drop b c m :
  path_ok ((b +:+ String "/" c) +:+ String "/" m) = true →
  path_ok (b +:+ String "/" m) = true.
Proof.
  intros (Hnul & Hm & Hlen & Hcs & Hcm)%path_ok_entry. apply path_ok_entry.
  rewrite has_nul_app in Hnul. apply orb_false_iff in Hnul as [Hb _].
  rewrite length_app_str in Hlen.
  unfold components in *. rewrite split_on_app_sep, forallb_app in Hcs.
  apply andb_true_iff in Hcs as [Hcb _].
  repeat split; try done. lia.
Qed.

(** The metadata directory path of the parent is within the limits when
    that of the directory is. *)
Lemma path_ok_parent_metadata_dir cs c :
  Forall plain_component cs → plain_name c →
  path_ok (join (absolute (cs ++ [c])) METADATA_DIR_NAME) = true →
  path_ok (join (absolute cs) METADATA_DIR_NAME) = true.
Proof.
  intros Hcs Hc Hok.
  assert (Forall plain_component (cs ++ [c])) as Hcs'.
  { apply Forall_app. split; [done |].
    by apply Forall_singleton, plain_name_component. }
  rewrite <- absolute_join in Hok by (done || apply plain_name_metadata_dir).
  rewrite <- absolute_join by (done || apply plain_name_metadata_dir).
  rewrite absolute_snoc in Hok |- *. rewrite below_snoc in Hok.
  by apply path_ok_below_drop in Hok.
Qed.

Lemma is_workspace_absolute fs cs :
  locate fs (absolute cs) = inr cs → node_at fs cs = Some Dir →
  path_ok (join (absolute cs) METADATA_DIR_NAME) = true →
  is_workspace fs (absolute cs) = is_workspace_location fs cs.
Proof.
  intros Hl Hk Hok.
  by rewrite (is_workspace_at fs _ cs) by by apply locate_metadata_dir.
Qed.

(** Along the ancestry of a directory the loop and the specification see
    the same workspaces. *)
Lemma find_along_ancestry fs cs :
  Forall plain_name cs →
  locate fs (absolute cs) = inr cs → node_at fs cs = Some Dir →
  path_ok (join (absolute cs) METADATA_DIR_NAME) = true →
  List.find (is_workspace fs) (map absolute (ancestry cs))
  = absolute <$> List.find (is_workspace_location fs) (ancestry cs).
Proof.
  unfold ancestry.
  induction cs as [|c cs IH] using rev_ind; intros Hcs Hl Hk Hok.
  - pose proof (is_workspace_absolute fs [] Hl Hk Hok) as Hws.
    simpl in *. rewrite Hws.
    by destruct (is_workspace_location fs []).
  - apply Forall_app in Hcs as [Hcs [Hc _]%Forall_cons].
    assert (Forall plain_component cs) as Hplain
      by (eapply Forall_impl; [done | apply plain_name_component]).
    rewrite prefixes_snoc, reverse_snoc, map_cons.
    cbn [List.find].
    rewrite (is_workspace_absolute fs (cs ++ [c])) by done.
    destruct (is_workspace_location fs (cs ++ [c])); [done |].
    pose proof Hl as Hl0. rewrite absolute_join in Hl0 by done.
    apply locate_join_inv in Hl0 as (k0 & Hl0 & Hk0 & Heq);
      [| done | by apply is_empty_false, absolute_nonempty].
    apply app_inj_tail in Heq as [<- _].
    apply IH; [done | done | done |].
    by eapply path_ok_parent_metadata_dir.
Qed.

(** On the normalised absolute path of a directory, with the metadata
    directory path within the limits, [find_enclosing_workspace] returns
    the path of the closest workspace. *)
Lemma find_enclosing_workspace_closest fs cs :
  Forall plain_name cs →
  path_isdir fs (absolute cs) = true →
  path_ok (join (absolute cs) METADATA_DIR_NAME) = true →
  find_enclosing_workspace fs (absolute cs)
  = absolute <$> closest_workspace fs (absolute cs).
Proof.
  intros Hcs (k & Hl & Hk)%path_isdir_inv Hok.
  pose proof (located_absolute _ _ _ Hcs Hl) as ->.
  rewrite find_enclosing_workspace_find, upward_walk_absolute
    by (eapply Forall_impl; [done | apply plain_name_component]).
  unfold closest_workspace. rewrite (locate_resolve _ _ _ Hl).
  by apply find_along_ancestry.
Qed.

End ClosestWorkspace.

(** ** Reading and updating verb documents *)

(** Two locations differ when their lengths do. *)
Ltac key_length_neq :=
  let H := fresh in
  intros H; apply (f_equal List.length) in H;
  unfold read_location_at, verb_file_at, readme_at, metadata_dir_at in H;
  repeat rewrite length_app in H; simpl in H; lia.

Section VerbNames.
Import PosixPath PosixPathFacts.

Lemma verb_file_name_not_readme v : verb_file_name (Some v) ≠ "README".
Proof.
  unfold verb_file_name; simpl.
  do 7 (destruct v as [|? v]; [simpl; congruence |]).
  simpl. congruence.
Qed.

Lemma verb_file_name_not_metadata_dir v :
  verb_file_name (Some v) ≠ METADATA_DIR_NAME.
Proof.
  unfold verb_file_name, METADATA_DIR_NAME; simpl.
  do 14 (destruct v as [|? v]; [simpl; congruence |]).
  simpl. congruence.
Qed.

Lemma verb_file_name_not_special v :
  verb_file_name (Some v) ≠ "" ∧ verb_file_name (Some v) ≠ "."
  ∧ verb_file_name (Some v) ≠ "..".
Proof.
  unfold verb_file_name; simpl.
  repeat split; intros E; apply (f_equal String.length) in E;
    rewrite length_app_str in E; simpl in E; lia.
Qed.

(** Whatever the verb, the components of its file path are those of the
    verb after those of the directory, the last one with [.yml] added. *)
Lemma verb_file_components d v :
  ∃ init l,
    components v = init ++ [l]
    ∧ ∃ pre, components (join d (verb_file_name (Some v)))
             = pre ++ init ++ [verb_file_name (Some l)].
Proof.
  unfold verb_file_name, components. simpl py_str.
  destruct (split_on_app_tail "/" v ".yml" eq_refl) as (init & l & Hv & Hvy).
  exists init, l. split; [done |]. unfold join.
  destruct (startswith_sep (v +:+ ".yml")); [exists []; by rewrite Hvy |].
  destruct (is_empty d || endswith_sep d) eqn:Hd.
  - apply orb_true_iff in Hd as [Hd | Hd].
    + apply is_empty_true in Hd as ->. exists [].
      change ("" +:+ (v +:+ ".yml")) with (v +:+ ".yml"). by rewrite Hvy.
    + apply endswith_sep_inv in Hd as [d' ->].
      rewrite app_assoc_str.
      change (d' +:+ "/" +:+ (v +:+ ".yml"))
        with (d' +:+ String "/" (v +:+ ".yml")).
      rewrite split_on_app_sep, Hvy. by exists (split_on "/" d').
  - change (d +:+ "/" +:+ (v +:+ ".yml"))
      with (d +:+ String "/" (v +:+ ".yml")).
    rewrite split_on_app_sep, Hvy. by exists (split_on "/" d).
Qed.

Lemma plain_verb_file_name v :
  plain_verb v → plain_name (verb_file_name (Some v)).
Proof.
  intros [Hne Hc]. unfold verb_file_name; simpl.
  destruct v as [|c v]; [done |].
  repeat split.
  - done.
  - simpl. destruct v; simpl; congruence.
  - simpl. destruct v as [|c' v]; [simpl; congruence |].
    destruct v; simpl; congruence.
  - by apply split_on_plain_app.
Qed.

Lemma get_paths_verb w v :
  v ≠ "" →
  get_paths w (Some v)
  = (join w METADATA_DIR_NAME,
     Some (join (join w METADATA_DIR_NAME) (verb_file_name (Some v)))).
Proof. intros Hv. unfold get_paths. by destruct v. Qed.

Lemma get_paths_empty_verb w :
  get_paths w (Some "") = (join w METADATA_DIR_NAME, None).
Proof. reflexivity. Qed.

Lemma verb_file_neq_readme k v : verb_file_at k v ≠ readme_at k.
Proof.
  unfold verb_file_at, readme_at. intros [= E]%app_inv_head.
  by apply verb_file_name_not_readme in E.
Qed.

End VerbNames.

Section Update.
Import PosixPath PosixPathFacts.
Context `{YamlCodec}.

Lemma node_at_initialised fs k key :
  node_at fs (metadata_dir_at k) = None ∨ node_at fs (metadata_dir_at k) = Some Dir →
  node_at (initialised k fs) key
  = if decide (key = readme_at k) then Some (File METADATA_README_TEXT)
    else if decide (key = metadata_dir_at k) then Some Dir
    else node_at fs key.
Proof.
  intros Hmd. unfold initialised.
  rewrite node_at_set_node by apply app_neq_nil.
  case_decide as E1; [subst; by rewrite decide_True |].
  rewrite decide_False by done.
  destruct Hmd as [-> | Hmd].
  - rewrite node_at_set_node by apply app_neq_nil.
    case_decide as E2; [subst; by rewrite decide_True |].
    by rewrite decide_False.
  - rewrite Hmd. case_decide; [by subst |]. done.
Qed.

Lemma initialised_dirs_kept fs k :
  node_at fs (readme_at k) ≠ Some Dir → dirs_kept fs (initialised k fs).
Proof.
  intros Hreadme. unfold initialised.
  destruct (node_at fs (metadata_dir_at k)) eqn:Hmd.
  - apply set_node_dirs_kept; [apply app_neq_nil | by left].
  - eapply dirs_kept_trans.
    + apply (set_node_dirs_kept (metadata_dir_at k) Dir);
        [apply app_neq_nil | by right].
    + apply set_node_dirs_kept; [apply app_neq_nil | left].
      rewrite node_at_set_node by apply app_neq_nil.
      rewrite decide_False by key_length_neq. done.
Qed.

Lemma cwd_initialised fs k : cwd (initialised k fs) = cwd fs.
Proof. unfold initialised. by destruct (node_at fs (metadata_dir_at k)). Qed.

(** *** [init_metadata_dir] without reset *)

Lemma workspace_ready_passes fs w k : workspace_ready fs w k → init_passes fs w k.
Proof.
  intros [Hr Hk Hnest Hmd Hreadme Hok].
  destruct (path_ok_metadata_dir w "README" plain_name_readme
              (resolve_nonempty _ _ _ Hr) Hok) as [_ Hokw].
  split; [by apply locate_of_resolve | done | tauto | done | done | done].
Qed.

Lemma init_passes_metadata_dir fs w k :
  init_passes fs w k →
  locate fs (join w METADATA_DIR_NAME) = inr (metadata_dir_at k).
Proof.
  intros [Hl Hk _ _ _ Hok].
  destruct (path_ok_metadata_dir w "README" plain_name_readme
              (locate_nonempty _ _ _ Hl) Hok) as [Hokmd _].
  by apply locate_metadata_dir.
Qed.

Lemma init_metadata_dir_at fs w k :
  init_passes fs w k →
  init_metadata_dir w false fs = (Returned tt, initialised k fs).
Proof.
  intros Hp. pose proof (init_passes_metadata_dir _ _ _ Hp) as Hlmd.
  destruct Hp as [Hl Hk Hnest Hmd Hreadme Hok].
  rewrite init_metadata_dir_passes;
    [| by rewrite (path_exists_at _ _ _ Hl), Hk | done].
  rewrite (path_exists_at _ _ _ Hlmd). unfold initialised.
  destruct Hmd as [Hmd | Hmd]; rewrite Hmd.
  - erewrite bind_returned by by apply os_mkdir_new.
    apply write_file_at.
    + apply locate_in_metadata_dir; [apply plain_name_readme | | | | done].
      * eapply locate_mono; [| done].
        apply set_node_dirs_kept; [apply app_neq_nil | by right].
      * rewrite node_at_set_node by apply app_neq_nil.
        rewrite decide_False by (symmetry; key_length_neq). done.
      * fold (metadata_dir_at k).
        rewrite node_at_set_node by apply app_neq_nil. by rewrite decide_True.
    + fold (metadata_dir_at k). fold (readme_at k).
      rewrite node_at_set_node by apply app_neq_nil.
      rewrite decide_False by key_length_neq. done.
  - erewrite bind_returned by done.
    apply write_file_at; [| done].
    by apply locate_in_metadata_dir; [apply plain_name_readme | | | |].
Qed.

(** *** What a call that returned tells *)

Lemma bind_returned_inv {A B} (m : M A) (k : A → M B) fs b fs' :
  bind m k fs = (Returned b, fs') →
  ∃ a fs1, m fs = (Returned a, fs1) ∧ k a fs1 = (Returned b, fs').
Proof.
  unfold bind. destruct (m fs) as [[a | e] fs1]; [eauto | done].
Qed.

Lemma write_file_inv p text fs fs' :
  write_file p text fs = (Returned tt, fs') →
  ∃ path k, p = Some path ∧ locate fs path = inr k
            ∧ node_at fs k ≠ Some Dir ∧ k ≠ []
            ∧ fs' = set_node k (File text) fs.
Proof.
  destruct p as [path |]; [| done]. unfold write_file. cbv beta iota.
  destruct (locate fs path) as [e | k] eqn:Hr; [done |].
  assert (k ≠ [] ∨ node_at fs k = Some Dir) as Hroot
    by (destruct k; [by right | by left]).
  destruct (node_at fs k) as [[|]|] eqn:Hk; [done | |];
    intros [= <-]; exists path, k; destruct Hroot as [Hne | ?];
    repeat split; (done || congruence).
Qed.

Lemma os_mkdir_inv p fs fs' :
  os_mkdir p fs = (Returned tt, fs') →
  ∃ k, locate fs p = inr k ∧ node_at fs k = None ∧ fs' = set_node k Dir fs.
Proof.
  unfold os_mkdir. destruct (locate fs p) as [e | k] eqn:Hl; [done |].
  destruct (node_at fs k) eqn:Hk; [done |]. intros [= <-]. by exists k.
Qed.

Lemma set_node_same k n fs :
  k ≠ [] → node_at fs k = Some n → set_node k n fs = fs.
Proof.
  intros Hk Hn. destruct fs as [c ns]. unfold set_node; simpl. f_equal.
  apply insert_id. by destruct k.
Qed.

Lemma path_exists_nonempty fs p : path_exists fs p = true → is_empty p = false.
Proof.
  intros (k & n & Hl & _)%path_exists_inv. by eapply locate_nonempty.
Qed.

(** A README that could be written shows the workspace directory and the
    metadata directory in place. *)
Lemma readme_written_inv fs w kr :
  is_empty w = false →
  locate fs (join (join w METADATA_DIR_NAME) "README") = inr kr →
  ∃ k, locate fs w = inr k ∧ node_at fs k = Some Dir
       ∧ locate fs (join w METADATA_DIR_NAME) = inr (metadata_dir_at k)
       ∧ node_at fs (metadata_dir_at k) = Some Dir
       ∧ kr = readme_at k.
Proof.
  intros Hw Hl.
  apply locate_join_inv in Hl as (kmd & Hlmd & Hmd & ->);
    [| apply plain_name_readme | by apply join_nonempty].
  pose proof Hlmd as Hlmd'.
  apply locate_join_inv in Hlmd as (k & Hlw & Hk & ->);
    [| apply plain_name_metadata_dir | done].
  by exists k.
Qed.

(** The nesting check is passed in three cases only. *)
Lemma nesting_check_passed (found : option string) w :
  str_truthy found && negb (bool_decide (found = Some w)) = false →
  found = None ∨ found = Some w ∨ found = Some "".
Proof.
  destruct found as [m |]; [| by left]. simpl.
  destruct m as [| c m]; [by right; right |]. simpl.
  case_bool_decide; [by right; left | done].
Qed.

Lemma init_no_reset_inv w fs fs1 :
  init_metadata_dir w false fs = (Returned tt, fs1) →
  ∃ k, init_passes fs w k ∧ fs1 = initialised k fs.
Proof.
  rewrite init_metadata_dir_unfold.
  destruct (path_exists fs w) eqn:Hex; [| done]. cbn [negb].
  destruct (str_truthy _ && _) eqn:Hnest; [done |].
  apply nesting_check_passed in Hnest.
  intros ([] & fs2 & Hmk & Hwrite)%bind_returned_inv.
  apply write_file_inv in Hwrite as (path & kr & [= <-] & Hl & Hnode & Hkr & ->).
  pose proof (path_exists_nonempty _ _ Hex) as Hw.
  pose proof (locate_path_ok _ _ _ Hl) as Hok.
  destruct (readme_written_inv _ _ _ Hw Hl) as (k & Hlw & Hk & _ & Hmd & ->).
  exists k. destruct (path_exists fs (join w METADATA_DIR_NAME)) eqn:Hexmd.
  - injection Hmk as <-. split; [split; try done; by right |].
    unfold initialised. by rewrite Hmd.
  - apply os_mkdir_inv in Hmk as (kmd & Hlmd & Hnone & ->).
    apply locate_join_inv in Hlmd as (k' & Hlw' & Hk' & ->);
      [| apply plain_name_metadata_dir | done].
    assert (k = k') as <- by (eapply locate_key_indep; [| done | done]; done).
    fold (metadata_dir_at k) in *. split.
    + split; try done; [by left |].
      rewrite node_at_set_node in Hnode by apply app_neq_nil.
      by rewrite decide_False in Hnode by key_length_neq.
    + unfold initialised. by rewrite Hnone.
Qed.

(** *** [get_metadata] *)

Lemma get_metadata_absent fs w v :
  v ≠ "" →
  path_exists fs (join (join w METADATA_DIR_NAME) (verb_file_name (Some v))) = false →
  get_metadata w v fs = (Returned (VMap ∅), fs).
Proof.
  intros Hv Hex. unfold get_metadata. rewrite get_paths_verb by done.
  unfold bind, os_path_exists, gets. by rewrite Hex.
Qed.

Lemma get_metadata_file fs w v k text :
  v ≠ "" →
  locate fs (join (join w METADATA_DIR_NAME) (verb_file_name (Some v))) = inr k →
  node_at fs k = Some (File text) →
  get_metadata w v fs
  = (match yaml_load text with
     | Some d => Returned d
     | None => Raised YAMLError
     end, fs).
Proof.
  intros Hv Hr Hk. unfold get_metadata. rewrite get_paths_verb by done.
  unfold bind at 1, os_path_exists, gets.
  rewrite (path_exists_at _ _ _ Hr), Hk. simpl.
  erewrite bind_returned by by eapply read_file_at.
  by destruct (yaml_load text).
Qed.

Lemma get_metadata_state w v fs : (get_metadata w v fs).2 = fs.
Proof.
  unfold get_metadata. destruct (get_paths w (Some v)) as [md [path |]];
    [| reflexivity].
  unfold bind at 1, os_path_exists, gets.
  destruct (path_exists fs path); [| reflexivity]. cbn [negb].
  unfold bind, read_file. destruct (os_stat fs path) as [e | [| text]];
    [reflexivity | reflexivity |].
  destruct (yaml_load text); reflexivity.
Qed.

(** [get_metadata] gives the same on two filesystems that have the same
    directories and the same entry where the verb file path leads. *)
Lemma get_metadata_agree fs fs' w v :
  dirs_kept fs fs' → dirs_kept fs' fs →
  (∀ path k, (get_paths w (Some v)).2 = Some path →
     locate fs path = inr k → node_at fs' k = node_at fs k) →
  result_of (get_metadata w v) fs' = result_of (get_metadata w v) fs.
Proof.
  intros Hkept Hback Hnode. unfold result_of, get_metadata.
  destruct (get_paths w (Some v)) as [md [path |]]; [| reflexivity].
  unfold bind at 1 3, os_path_exists, gets, path_exists, os_stat.
  destruct (locate fs path) as [e | k] eqn:Hl.
  - destruct (locate fs' path) as [e' | k'] eqn:Hl'; [reflexivity |].
    apply (locate_mono _ _ _ _ Hback) in Hl'. congruence.
  - rewrite (locate_mono _ _ _ _ Hkept Hl), (Hnode path k eq_refl Hl).
    destruct (node_at fs k) as [n |] eqn:Hk; [| reflexivity]. cbn [negb].
    unfold bind, read_file, os_stat.
    rewrite Hl, (locate_mono _ _ _ _ Hkept Hl), (Hnode path k eq_refl Hl), Hk.
    destruct n as [| text]; [reflexivity |].
    destruct (yaml_load text); reflexivity.
Qed.

(** The place where [update_metadata] looks for the current document. *)
Lemma read_location_inv fs w k v loc :
  plain_verb v →
  locate fs w = inr k →
  locate fs (join (join (join w METADATA_DIR_NAME) METADATA_DIR_NAME)
               (verb_file_name (Some v))) = inr loc →
  loc = read_location_at k v.
Proof.
  intros Hv Hl Hloc. pose proof (locate_nonempty _ _ _ Hl) as Hw.
  apply locate_join_inv in Hloc as (k2 & Hl2 & _ & ->);
    [| by apply plain_verb_file_name | by apply join_nonempty].
  apply locate_join_inv in Hl2 as (k1 & Hl1 & _ & ->);
    [| apply plain_name_metadata_dir | by apply join_nonempty].
  apply locate_join_inv in Hl1 as (k0 & Hl0 & _ & ->);
    [| apply plain_name_metadata_dir | done].
  assert (k0 = k) as -> by congruence. done.
Qed.

Lemma read_location_absent fs w k v :
  plain_verb v →
  locate fs w = inr k →
  node_at fs (read_location_at k v) = None →
  path_exists fs
    (join (join (join w METADATA_DIR_NAME) METADATA_DIR_NAME)
       (verb_file_name (Some v))) = false.
Proof.
  intros Hv Hl Hnone.
  destruct (locate fs (join (join (join w METADATA_DIR_NAME) METADATA_DIR_NAME)
              (verb_file_name (Some v)))) as [e | loc] eqn:Hloc;
    [by eapply path_exists_unlocated |].
  rewrite (path_exists_at _ _ _ Hloc).
  rewrite (read_location_inv _ _ _ _ _ Hv Hl Hloc). by rewrite Hnone.
Qed.

(** *** [update_metadata] *)

Lemma node_at_updated fs k v text key :
  node_at fs (metadata_dir_at k) = None ∨ node_at fs (metadata_dir_at k) = Some Dir →
  node_at (updated k v text fs) key
  = if decide (key = verb_file_at k v) then Some (File text)
    else if decide (key = readme_at k) then Some (File METADATA_README_TEXT)
    else if decide (key = metadata_dir_at k) then Some Dir
    else node_at fs key.
Proof.
  intros Hmd. unfold updated.
  rewrite node_at_set_node by apply app_neq_nil.
  case_decide as E; [subst; by rewrite decide_True |].
  rewrite decide_False by done. by apply node_at_initialised.
Qed.

Lemma node_at_initialised_verb_file fs k v :
  node_at fs (metadata_dir_at k) = None ∨ node_at fs (metadata_dir_at k) = Some Dir →
  node_at (initialised k fs) (verb_file_at k v) = node_at fs (verb_file_at k v).
Proof.
  intros Hmd. rewrite node_at_initialised by done.
  rewrite decide_False by apply verb_file_neq_readme.
  by rewrite decide_False by key_length_neq.
Qed.

Lemma initialised_passes fs w k :
  init_passes fs w k →
  locate (initialised k fs) w = inr k
  ∧ node_at (initialised k fs) k = Some Dir
  ∧ node_at (initialised k fs) (metadata_dir_at k) = Some Dir.
Proof.
  intros [Hl Hk _ Hmd Hreadme _].
  pose proof (initialised_dirs_kept fs k Hreadme) as Hkept.
  split; [by eapply locate_mono |]. split; [by apply Hkept |].
  rewrite node_at_initialised by done.
  rewrite decide_False by (symmetry; key_length_neq). by rewrite decide_True.
Qed.

(** The update: initialisation, the read at the read location, the merge
    and the write. *)
Lemma update_metadata_at fs w k v m current m0 :
  init_passes fs w k → plain_verb v →
  path_ok (join (join w METADATA_DIR_NAME) (verb_file_name (Some v))) = true →
  node_at fs (verb_file_at k v) ≠ Some Dir →
  get_metadata (join w METADATA_DIR_NAME) v (initialised k fs)
  = (Returned current, initialised k fs) →
  py_or current (VMap ∅) = VMap m0 →
  update_metadata w v m fs
  = (Returned tt, updated k v (yaml_dump (VMap (m ∪ m0))) fs).
Proof.
  intros Hp Hv Hok Hfile Hget Hor. pose proof Hv as [Hne _].
  destruct (initialised_passes _ _ _ Hp) as (Hl' & Hk' & Hmd').
  pose proof Hp as [_ _ _ Hmd _ _].
  unfold update_metadata. rewrite get_paths_verb by done.
  erewrite bind_returned by by apply init_metadata_dir_at.
  erewrite bind_returned by done.
  rewrite Hor. simpl dict_update. unfold bind at 1, ret. unfold updated.
  apply write_file_at.
  - by apply locate_in_metadata_dir; [apply plain_verb_file_name | | | |].
  - fold (metadata_dir_at k). fold (verb_file_at k v).
    by rewrite node_at_initialised_verb_file.
Qed.

Lemma update_metadata_inv fs fs' w v m :
  plain_verb v →
  update_metadata w v m fs = (Returned tt, fs') →
  ∃ k current m0,
    init_passes fs w k
    ∧ path_ok (join (join w METADATA_DIR_NAME) (verb_file_name (Some v))) = true
    ∧ node_at fs (verb_file_at k v) ≠ Some Dir
    ∧ get_metadata (join w METADATA_DIR_NAME) v (initialised k fs)
      = (Returned current, initialised k fs)
    ∧ py_or current (VMap ∅) = VMap m0
    ∧ fs' = updated k v (yaml_dump (VMap (m ∪ m0))) fs.
Proof.
  intros Hv. pose proof Hv as [Hne _].
  unfold update_metadata. rewrite get_paths_verb by done.
  intros ([] & fs1 & Hinit & Hrest)%bind_returned_inv.
  apply init_no_reset_inv in Hinit as (k & Hp & ->).
  apply bind_returned_inv in Hrest as (current & fs1' & Hget & Hrest).
  pose proof (get_metadata_state (join w METADATA_DIR_NAME) v (initialised k fs))
    as Hstate.
  rewrite Hget in Hstate. simpl in Hstate. subst fs1'.
  apply bind_returned_inv in Hrest as (data & fs1' & Hmerge & Hwrite).
  destruct (py_or current (VMap ∅)) as [| | | | | m0] eqn:Hor; try done.
  injection Hmerge as <- <-.
  apply write_file_inv in Hwrite as (path & kk & [= <-] & Hl & Hnode & Hkk & ->).
  destruct (initialised_passes _ _ _ Hp) as (Hl' & Hk' & Hmd').
  pose proof Hp as [Hlw _ _ Hmd _ _].
  pose proof (locate_path_ok _ _ _ Hl) as Hok.
  apply locate_join_inv in Hl as (k2 & Hl2 & _ & ->);
    [| by apply plain_verb_file_name
     | by eapply join_nonempty].
  apply locate_join_inv in Hl2 as (k1 & Hl1 & _ & ->);
    [| apply plain_name_metadata_dir | by eapply locate_nonempty].
  assert (k1 = k) as -> by congruence.
  fold (metadata_dir_at k) in *. fold (verb_file_at k v) in *.
  rewrite node_at_initialised_verb_file in Hnode by done.
  by exists k, current, m0.
Qed.

(** On a ready workspace, with nothing at the read location. *)
Lemma update_metadata_ready fs w k v m :
  workspace_ready fs w k → plain_verb v →
  path_ok (join (join w METADATA_DIR_NAME) (verb_file_name (Some v))) = true →
  node_at fs (verb_file_at k v) ≠ Some Dir →
  node_at fs (read_location_at k v) = None →
  update_metadata w v m fs
  = (Returned tt, updated k v (yaml_dump (VMap m)) fs).
Proof.
  intros Hp%workspace_ready_passes Hv Hok Hfile Hloc. pose proof Hv as [Hne _].
  destruct (initialised_passes _ _ _ Hp) as (Hl' & Hk' & Hmd').
  pose proof Hp as [_ _ _ Hmd _ _].
  rewrite (update_metadata_at fs w k v m (VMap ∅) ∅); try done.
  - by rewrite (right_id_L ∅ (∪) m).
  - apply get_metadata_absent; [done |].
    eapply read_location_absent; try done.
    rewrite node_at_initialised by done.
    rewrite !decide_False by key_length_neq. done.
Qed.

Lemma updated_dirs_kept fs k v text :
  node_at fs (metadata_dir_at k) = None ∨ node_at fs (metadata_dir_at k) = Some Dir →
  node_at fs (readme_at k) ≠ Some Dir →
  node_at fs (verb_file_at k v) ≠ Some Dir →
  dirs_kept fs (updated k v text fs).
Proof.
  intros Hmd Hreadme Hfile.
  eapply dirs_kept_trans; [by apply initialised_dirs_kept |].
  apply set_node_dirs_kept; [apply app_neq_nil | left].
  by rewrite node_at_initialised_verb_file.
Qed.

(** What [get_metadata] reads back after an update. *)
Lemma get_metadata_updated fs w k v text :
  init_passes fs w k → plain_verb v →
  path_ok (join (join w METADATA_DIR_NAME) (verb_file_name (Some v))) = true →
  node_at fs (verb_file_at k v) ≠ Some Dir →
  get_metadata w v (updated k v text fs)
  = (match yaml_load text with
     | Some d => Returned d
     | None => Raised YAMLError
     end, updated k v text fs).
Proof.
  intros [Hl Hk Hnest Hmd Hreadme Hlim] [Hne Hv] Hok Hfile.
  pose proof (updated_dirs_kept fs k v text Hmd Hreadme Hfile) as Hkept.
  apply get_metadata_file with (k := verb_file_at k v); [done | |].
  - apply locate_in_metadata_dir; [by apply plain_verb_file_name | | | | done].
    + by eapply locate_mono.
    + by apply Hkept.
    + fold (metadata_dir_at k). rewrite node_at_updated by done.
      rewrite decide_False by (symmetry; key_length_neq).
      rewrite decide_False by (symmetry; key_length_neq).
      by rewrite decide_True.
  - rewrite node_at_updated by done. by rewrite decide_True.
Qed.

Lemma cwd_updated fs k v text : cwd (updated k v text fs) = cwd fs.
Proof. unfold updated. simpl. apply cwd_initialised. Qed.

Lemma get_metadata_eq w v fs :
  get_metadata w v fs = (result_of (get_metadata w v) fs, fs).
Proof.
  pose proof (get_metadata_state w v fs) as Hstate. unfold result_of.
  destruct (get_metadata w v fs) as [r fs0]. simpl in *. by subst fs0.
Qed.

Lemma set_node_file_dirs_back k text fs :
  k ≠ [] → dirs_kept (set_node k (File text) fs) fs.
Proof.
  intros Hk. split; [done |]. intros key.
  rewrite node_at_set_node by done. by case_decide.
Qed.

(** After an update the workspace passes initialisation again, and
    initialisation changes nothing. *)
Lemma updated_passes fs w k v text :
  init_passes fs w k →
  node_at fs (verb_file_at k v) ≠ Some Dir →
  init_passes (updated k v text fs) w k
  ∧ initialised k (updated k v text fs) = updated k v text fs
  ∧ node_at (updated k v text fs) (verb_file_at k v) = Some (File text)
  ∧ dirs_kept fs (updated k v text fs).
Proof.
  intros Hp Hfile. pose proof (init_passes_metadata_dir _ _ _ Hp) as Hlmd.
  destruct Hp as [Hl Hk Hnest Hmd Hreadme Hok].
  pose proof (updated_dirs_kept fs k v text Hmd Hreadme Hfile) as Hkept.
  assert (node_at (updated k v text fs) (metadata_dir_at k) = Some Dir) as Hmd'.
  { rewrite node_at_updated by done.
    rewrite decide_False by (symmetry; key_length_neq).
    rewrite decide_False by (symmetry; key_length_neq).
    by rewrite decide_True. }
  assert (node_at (updated k v text fs) (readme_at k)
          = Some (File METADATA_README_TEXT)) as Hreadme'.
  { rewrite node_at_updated by done.
    rewrite decide_False by (symmetry; apply verb_file_neq_readme).
    by rewrite decide_True. }
  split; [| split; [| split; [| done]]].
  - split; [by eapply locate_mono | by apply Hkept | | by right
           | by rewrite Hreadme' | done].
    right; left. apply find_enclosing_workspace_self.
    rewrite (is_workspace_at _ _ k) by by eapply locate_mono.
    fold (metadata_dir_at k). by rewrite Hmd'.
  - unfold initialised at 1. rewrite Hmd'.
    by apply set_node_same; [apply app_neq_nil |].
  - rewrite node_at_updated by done. by rewrite decide_True.
Qed.

(** The read at the read location gives the same before and after the
    write of the verb file. *)
Lemma read_location_unchanged fs w k v text :
  init_passes fs w k → plain_verb v →
  node_at fs (verb_file_at k v) ≠ Some Dir →
  get_metadata (join w METADATA_DIR_NAME) v (updated k v text fs)
  = (result_of (get_metadata (join w METADATA_DIR_NAME) v) (initialised k fs),
     updated k v text fs).
Proof.
  intros Hp Hv Hfile. pose proof Hv as [Hne _].
  destruct (initialised_passes _ _ _ Hp) as (Hl' & _ & _).
  pose proof Hp as [_ _ _ Hmd _ _].
  rewrite get_metadata_eq. f_equal. unfold updated.
  apply get_metadata_agree.
  - apply set_node_dirs_kept; [apply app_neq_nil | left].
    by rewrite node_at_initialised_verb_file.
  - apply set_node_file_dirs_back, app_neq_nil.
  - intros path loc Hpath Hloc.
    rewrite get_paths_verb in Hpath by done. injection Hpath as <-.
    rewrite (read_location_inv _ _ _ _ _ Hv Hl' Hloc).
    rewrite node_at_set_node by apply app_neq_nil.
    by rewrite decide_False by key_length_neq.
Qed.

(** Where the file path of a plain verb leads. *)
Lemma verb_file_inv fs w k v loc :
  plain_verb v →
  locate fs w = inr k →
  locate fs (join (join w METADATA_DIR_NAME) (verb_file_name (Some v))) = inr loc →
  loc = verb_file_at k v.
Proof.
  intros Hv Hl Hloc. pose proof (locate_nonempty _ _ _ Hl) as Hw.
  apply locate_join_inv in Hloc as (k1 & Hl1 & _ & ->);
    [| by apply plain_verb_file_name | by apply join_nonempty].
  apply locate_join_inv in Hl1 as (k0 & Hl0 & _ & ->);
    [| apply plain_name_metadata_dir | done].
  assert (k0 = k) as -> by congruence. done.
Qed.

End Update.

(** ** Properties of the module *)

Section PathResolution.
Import PosixPath.

(** C10: [get_paths] with the empty string as verb gives no verb file
    path, exactly as with no verb at all, whereas every non-empty verb
    gets a path that ends in [.yml]. *)
Theorem get_paths_empty_verb_is_no_verb (w : string) :
  (get_paths w (Some "")).2 = None
  ∧ get_paths w (Some "") = get_paths w None
  ∧ ∀ v, v ≠ "" →
      ∃ stem, (get_paths w (Some v)).2 = Some (stem +:+ ".yml").
Proof.
  split; [done |]. split; [done |].
  intros v Hv. rewrite get_paths_verb by done. simpl.
  unfold verb_file_name, join. simpl py_str.
  destruct (startswith_sep (v +:+ ".yml")); [by exists v |].
  destruct (_ || _).
  - eexists. by rewrite <- app_assoc_str.
  - eexists. by rewrite <- !app_assoc_str.
Qed.

End PathResolution.

Section DiscoveryClaims.
Import PosixPath PosixPathFacts.

(** What the loop of [find_enclosing_workspace] computes, for every start
    path: the first of its search paths (which begin with the start path
    itself) that is a workspace, and [None] when no search path, or no
    initial segment of the start path at all, is a workspace.  From a
    normalised absolute path the search paths are the path and each of its
    ancestors in turn, up to the root. *)
Lemma find_enclosing_workspace_innermost (fs : filesystem) (p : string) :
  head (upward_walk p) = Some p
  ∧ (∀ c, find_enclosing_workspace fs p = Some c ↔
          ∃ before after,
            upward_walk p = before ++ c :: after
            ∧ is_workspace fs c = true
            ∧ Forall (λ q, is_workspace fs q = false) before)
  ∧ ((∀ q, q ∈ upward_walk p → is_workspace fs q = false) →
     find_enclosing_workspace fs p = None)
  ∧ ((∀ q, string_prefix q p → is_workspace fs q = false) →
     find_enclosing_workspace fs p = None)
  ∧ (∀ cs, Forall plain_component cs → p = absolute cs →
       upward_walk p = map absolute (reverse (prefixes cs))).
Proof.
  rewrite find_enclosing_workspace_find.
  split; [done |]. split; [| split; [| split]].
  - intros c. split; [apply find_first |].
    intros (before & after & -> & Hc & Hb).
    induction Hb as [|x before Hx _ IH]; simpl; [by rewrite Hc |].
    by rewrite Hx.
  - apply find_none_iff.
  - intros Hnone. apply find_none_iff. intros q Hq.
    apply Hnone. by eapply upward_walk_from_prefix.
  - intros cs Hcs ->. by apply upward_walk_absolute.
Qed.

(** The loop of [find_enclosing_workspace] ends on every start path, after
    at most one pass more than the path has named components; it returns
    [None] only in the pass on the last of its search paths, where the
    split of the search path has an empty tail, and for a normalised
    absolute start path that last path is the root. *)
Lemma find_enclosing_workspace_terminates (fs : filesystem) (p : string) :
  ∃ n q,
    loop_run fs p n q (find_enclosing_workspace fs p)
    ∧ n ≤ S (depth p)
    ∧ (∀ fuel, n ≤ fuel →
         find_enclosing_workspace_loop fuel fs p
         = Some (find_enclosing_workspace fs p))
    ∧ (find_enclosing_workspace fs p = None →
       (split q).2 = "" ∧ is_workspace fs q = false
       ∧ last (upward_walk p) = Some q
       ∧ ∀ cs, Forall plain_component cs → p = absolute cs → q = "/").
Proof.
  destruct (loop_run_exists fs (S (depth p)) p) as (n & q & r & Hrun & Hn & Hr);
    [lia |].
  assert (find_enclosing_workspace fs p = r) as ->.
  { unfold find_enclosing_workspace.
    by rewrite (loop_run_fuel fs _ _ _ _ Hrun (S (depth p)) Hn). }
  exists n, q. split; [done |]. split; [done |]. split.
  - by eapply loop_run_fuel.
  - intros ->. destruct Hr as (Htail & Hws & Hlast).
    split; [done |]. split; [done |]. split; [done |].
    intros cs Hcs ->. unfold upward_walk in Hlast.
    pose proof (upward_walk_absolute_last cs Hcs) as Hroot.
    unfold upward_walk in Hroot. congruence.
Qed.

End DiscoveryClaims.

Section InitialisationClaims.
Import PosixPath.

(** C4: on a path that does not exist [init_metadata_dir] raises the
    "does not exist" [IOError], whatever the reset flag, and the
    filesystem is left as it was. *)
Theorem init_metadata_dir_missing_path
    (fs : filesystem) (p : string) (reset : bool) :
  path_exists fs p = false →
  init_metadata_dir p reset fs
  = (Raised (IOError (not_exist_message p)), fs).
Proof. intros Hex. by rewrite init_metadata_dir_unfold, Hex. Qed.

End InitialisationClaims.

Section Reset.
Import PosixPath PosixPathFacts.

Lemma node_at_remove_tree k0 fs key :
  k0 ≠ [] →
  node_at (remove_tree k0 fs) key
  = if decide (k0 `prefix_of` key) then None else node_at fs key.
Proof.
  intros Hk0. destruct key as [|x key].
  - rewrite decide_False; [done |]. by intros ->%prefix_nil_inv.
  - unfold node_at, remove_tree; simpl. apply option_eq. intros n.
    rewrite map_lookup_filter_Some. simpl.
    destruct (decide (k0 `prefix_of` x :: key)) as [Hp | Hp].
    + split; [by intros [_ ?] | done].
    + split; [by intros [? _] | done].
Qed.

Lemma not_prefix_shorter (k : list string) n : ¬ (k ++ [n]) `prefix_of` k.
Proof.
  intros Hp%prefix_length. rewrite length_app in Hp. simpl in Hp. lia.
Qed.

Lemma node_at_reset_state fs k key :
  node_at (reset_state k fs) key
  = if decide (key = readme_at k) then Some (File METADATA_README_TEXT)
    else if decide (key = metadata_dir_at k) then Some Dir
    else if decide (metadata_dir_at k `prefix_of` key) then None
    else node_at fs key.
Proof.
  unfold reset_state.
  rewrite node_at_set_node by apply app_neq_nil.
  case_decide as E1; [subst; by rewrite decide_True |].
  rewrite decide_False by done.
  rewrite node_at_set_node by apply app_neq_nil.
  case_decide as E2; [subst; by rewrite decide_True |].
  rewrite decide_False by done.
  apply node_at_remove_tree, app_neq_nil.
Qed.

(** [init_metadata_dir] with reset on a workspace whose path still
    resolves once the metadata directory is deleted. *)
Lemma init_metadata_dir_reset_ready fs w k :
  locate fs w = inr k → node_at fs k = Some Dir →
  node_at fs (metadata_dir_at k) = Some Dir →
  locate (remove_tree (metadata_dir_at k) fs) w = inr k →
  path_ok (join (join w METADATA_DIR_NAME) "README") = true →
  init_metadata_dir w true fs = (Returned tt, reset_state k fs).
Proof.
  intros Hr Hk Hmd Hr1 Hok.
  destruct (path_ok_metadata_dir w "README" plain_name_readme
              (locate_nonempty _ _ _ Hr) Hok) as [Hokmd _].
  pose proof (locate_metadata_dir _ _ _ Hr Hk Hokmd) as Hrmd.
  fold (metadata_dir_at k) in Hrmd.
  rewrite init_metadata_dir_passes; cycle 1.
  { by rewrite (path_exists_at _ _ _ Hr), Hk. }
  { right; left. apply find_enclosing_workspace_self.
    rewrite (is_workspace_at _ _ _ Hrmd). fold (metadata_dir_at k).
    by rewrite Hmd. }
  rewrite (path_exists_at _ _ _ Hrmd), Hmd.
  set (fs1 := remove_tree (metadata_dir_at k) fs) in *.
  assert (node_at fs1 k = Some Dir) as Hk1.
  { unfold fs1. rewrite node_at_remove_tree by apply app_neq_nil.
    rewrite decide_False by apply not_prefix_shorter. done. }
  assert (node_at fs1 (metadata_dir_at k) = None) as Hmd1.
  { unfold fs1. rewrite node_at_remove_tree by apply app_neq_nil.
    by rewrite decide_True. }
  erewrite bind_returned; cycle 1.
  { erewrite bind_returned by by eapply shutil_rmtree_dir.
    fold fs1. apply os_mkdir_new; [| done].
    by apply locate_metadata_dir. }
  unfold reset_state. fold fs1.
  set (fs2 := set_node (metadata_dir_at k) Dir fs1).
  assert (dirs_kept fs1 fs2) as Hkept
    by (apply set_node_dirs_kept; [apply app_neq_nil | by right]).
  apply write_file_at.
  - apply locate_in_metadata_dir; [apply plain_name_readme | | | | done].
    + by eapply locate_mono.
    + by apply Hkept.
    + unfold fs2. fold (metadata_dir_at k).
      rewrite node_at_set_node by apply app_neq_nil. by rewrite decide_True.
  - fold (metadata_dir_at k). fold (readme_at k). unfold fs2.
    rewrite node_at_set_node by apply app_neq_nil.
    rewrite decide_False by key_length_neq.
    unfold fs1. rewrite node_at_remove_tree by apply app_neq_nil.
    rewrite decide_True; [done |]. by apply prefix_app_r.
Qed.

Lemma reset_state_resolve fs w k :
  node_at fs k = Some Dir →
  locate (remove_tree (metadata_dir_at k) fs) w = inr k →
  locate (reset_state k fs) w = inr k
  ∧ node_at (reset_state k fs) k = Some Dir
  ∧ node_at (reset_state k fs) (metadata_dir_at k) = Some Dir.
Proof.
  intros Hk Hr1.
  assert (node_at (reset_state k fs) k = Some Dir) as Hk'.
  { rewrite node_at_reset_state.
    rewrite !decide_False;
      [done | apply not_prefix_shorter | symmetry; key_length_neq
      | symmetry; key_length_neq]. }
  assert (node_at (reset_state k fs) (metadata_dir_at k) = Some Dir) as Hmd'.
  { rewrite node_at_reset_state.
    rewrite decide_False by (symmetry; key_length_neq). by rewrite decide_True. }
  split; [| done].
  eapply locate_mono; [| done]. unfold reset_state.
  eapply dirs_kept_trans.
  - apply (set_node_dirs_kept (metadata_dir_at k) Dir);
      [apply app_neq_nil | by right].
  - apply set_node_dirs_kept; [apply app_neq_nil | left].
    rewrite node_at_set_node by apply app_neq_nil.
    rewrite decide_False by key_length_neq.
    rewrite node_at_remove_tree by apply app_neq_nil.
    rewrite decide_True; [done |]. by apply prefix_app_r.
Qed.

(** [init_metadata_dir] without reset on an existing metadata directory
    touches the README only. *)
Lemma init_metadata_dir_keep fs w k key :
  locate fs w = inr k → node_at fs k = Some Dir →
  node_at fs (metadata_dir_at k) = Some Dir →
  path_ok (join (join w METADATA_DIR_NAME) "README") = true →
  key ≠ readme_at k →
  node_at (state_after (init_metadata_dir w false) fs) key = node_at fs key.
Proof.
  intros Hr Hk Hmd Hok Hkey.
  destruct (path_ok_metadata_dir w "README" plain_name_readme
              (locate_nonempty _ _ _ Hr) Hok) as [Hokmd _].
  pose proof (locate_metadata_dir _ _ _ Hr Hk Hokmd) as Hrmd.
  fold (metadata_dir_at k) in Hrmd.
  unfold state_after.
  rewrite init_metadata_dir_passes; cycle 1.
  { by rewrite (path_exists_at _ _ _ Hr), Hk. }
  { right; left. apply find_enclosing_workspace_self.
    rewrite (is_workspace_at _ _ _ Hrmd). fold (metadata_dir_at k).
    by rewrite Hmd. }
  rewrite (path_exists_at _ _ _ Hrmd), Hmd.
  erewrite bind_returned by done.
  unfold write_file.
  rewrite (locate_in_metadata_dir fs w k "README" plain_name_readme Hr Hk Hmd Hok).
  fold (metadata_dir_at k). fold (readme_at k).
  destruct (node_at fs (readme_at k)) as [[|]|]; simpl; [done | |];
    rewrite node_at_set_node by apply app_neq_nil;
    by rewrite decide_False.
Qed.

(** *** Paths without [..] *)

Lemma walk_prefix fs k0 cs k :
  ".." ∉ cs → walk fs k0 cs = inr k → k0 `prefix_of` k.
Proof.
  revert k0. induction cs as [|c cs IH]; intros k0 Hdd; simpl.
  - by intros [= ->].
  - apply not_elem_of_cons in Hdd as [Hc Hcs].
    destruct (node_at fs k0) as [[|]|]; [| done | done].
    case_decide; [by apply IH |].
    rewrite decide_False by done.
    intros Hw%IH; [| done]. etrans; [| done]. by apply prefix_app_r.
Qed.

Lemma walk_agree fs fs' k0 cs k :
  ".." ∉ cs →
  (∀ key, key `prefix_of` k → node_at fs' key = node_at fs key) →
  walk fs k0 cs = inr k → walk fs' k0 cs = inr k.
Proof.
  intros Hdd Hagree. revert k0.
  induction cs as [|c cs IH]; intros k0 Hw; [done |].
  pose proof (walk_prefix _ _ _ _ Hdd Hw) as Hk0.
  apply not_elem_of_cons in Hdd as [Hc Hcs].
  simpl in *. rewrite (Hagree _ Hk0).
  destruct (node_at fs k0) as [[|]|]; [| done | done].
  case_decide; [by apply IH |].
  rewrite decide_False in * by done. by apply IH.
Qed.

(** A workspace path without [..] resolves as before when its metadata
    directory is deleted. *)
Lemma resolve_without_metadata_dir fs w k :
  ".." ∉ components w →
  resolve fs w = inr k →
  resolve (remove_tree (metadata_dir_at k) fs) w = inr k.
Proof.
  intros Hdd. unfold resolve. simpl.
  destruct (is_empty w); [done |].
  apply walk_agree; [done |]. intros key Hkey.
  rewrite node_at_remove_tree by apply app_neq_nil.
  rewrite decide_False; [done |]. intros Hp.
  apply (not_prefix_shorter k METADATA_DIR_NAME). by etrans.
Qed.

(** *** Where a verb file path leads *)

Lemma walk_snoc_name fs k0 init n loc :
  n ≠ "" → n ≠ "." → n ≠ ".." →
  walk fs k0 (init ++ [n]) = inr loc → ∃ loc0, loc = loc0 ++ [n].
Proof.
  intros H1 H2 H3. rewrite walk_app.
  destruct (walk fs k0 init) as [e | k1]; [done |]. simpl.
  destruct (node_at fs k1) as [[|]|]; [| done | done].
  rewrite decide_False by (intros [|]; done). rewrite decide_False by done.
  intros [= <-]. by exists k1.
Qed.

(** Whatever the verb, its file path leads to an entry whose name ends in
    [.yml]: never to the metadata directory or the README. *)
Lemma verb_file_located fs d v loc :
  locate fs (join d (verb_file_name (Some v))) = inr loc →
  ∃ loc0 l, loc = loc0 ++ [verb_file_name (Some l)].
Proof.
  intros Hl%locate_resolve. unfold resolve in Hl.
  destruct (is_empty _); [done |].
  destruct (verb_file_components d v) as (init & l & _ & pre & Hc).
  rewrite Hc, app_assoc in Hl.
  destruct (verb_file_name_not_special l) as (H1 & H2 & H3).
  apply walk_snoc_name in Hl as [loc0 ->]; [| done..]. by exists loc0, l.
Qed.

(** A relative path joined to a directory path is followed from the
    directory. *)
Lemma resolve_join_relative fs d n kd :
  startswith_sep n = false → is_empty n = false →
  resolve fs d = inr kd →
  resolve fs (join d n)
  = match node_at fs kd with
    | Some Dir => walk fs kd (components n)
    | Some (File _) => inl ENOTDIR
    | None => inl ENOENT
    end.
Proof.
  intros Hn Hne Hr. pose proof (resolve_nonempty _ _ _ Hr) as Hd.
  assert (∃ c cs, components n = c :: cs) as (c & cs & Hcs).
  { unfold components. destruct (split_on "/" n) as [|c cs] eqn:E;
      [by apply split_on_nonnil in E | by exists c, cs]. }
  assert (∀ k, walk fs k (components n)
               = match node_at fs k with
                 | Some Dir => walk fs k (components n)
                 | Some (File _) => inl ENOTDIR
                 | None => inl ENOENT
                 end) as Hhead.
  { intros k. rewrite Hcs. simpl. by destruct (node_at fs k) as [[|]|]. }
  unfold resolve in *. unfold join. rewrite Hn, Hd in *. cbn [orb].
  destruct (endswith_sep d) eqn:Hend.
  - apply endswith_sep_inv in Hend as [d' ->].
    rewrite app_assoc_str.
    change (d' +:+ "/" +:+ n) with (d' +:+ String "/" n).
    assert (is_empty (d' +:+ String "/" n) = false) as -> by by destruct d'.
    assert (startswith_sep (d' +:+ String "/" n) = startswith_sep (d' +:+ "/"))
      as -> by by destruct d'.
    unfold components in *. rewrite split_on_app_sep, walk_app in Hr |- *.
    destruct (walk fs _ (split_on "/" d')) as [e | k1]; [done |].
    simpl (split_on _ "") in Hr. rewrite walk_empty_component in Hr.
    destruct (node_at fs k1) as [[|]|] eqn:Hk1; [| done | done].
    injection Hr as <-. by rewrite Hhead, Hk1.
  - change (d +:+ "/" +:+ n) with (d +:+ String "/" n).
    rewrite is_empty_app, startswith_sep_app by done.
    unfold components in *. rewrite split_on_app_sep, walk_app, Hr.
    apply Hhead.
Qed.

(** A verb that is not empty, does not begin with a separator and has no
    [..] component has its file inside the metadata directory. *)
Lemma verb_file_inside fs d v kd loc :
  v ≠ "" → startswith_sep v = false → ".." ∉ components v →
  locate fs d = inr kd →
  locate fs (join d (verb_file_name (Some v))) = inr loc →
  kd `prefix_of` loc.
Proof.
  intros Hne Hsep Hdd Hd%locate_resolve Hl%locate_resolve.
  rewrite (resolve_join_relative fs d _ kd) in Hl; [| | | done].
  - destruct (node_at fs kd) as [[|]|]; [| done | done].
    eapply walk_prefix; [| done].
    destruct (verb_file_components "" v) as (init & l & Hv & _).
    unfold verb_file_name, components in *. simpl py_str.
    destruct (split_on_app_tail "/" v ".yml" eq_refl) as (init' & l' & Hv' & ->).
    rewrite Hv' in Hdd. intros Hin. apply Hdd.
    apply elem_of_app in Hin as [Hin | Hin]; [by apply elem_of_app; left |].
    apply list_elem_of_singleton in Hin.
    apply (f_equal String.length) in Hin.
    rewrite length_app_str in Hin. simpl in Hin. lia.
  - unfold verb_file_name. simpl py_str.
    rewrite startswith_sep_app; [done | by apply is_empty_false].
  - unfold verb_file_name. simpl py_str.
    apply is_empty_app. by apply is_empty_false.
Qed.

End Reset.

Section DocumentClaims.
Import PosixPath PosixPathFacts.
Context `{YamlCodec}.

(** C3 (amended): for a non-empty verb whose file does not exist,
    [get_metadata] returns the empty mapping, raises nothing and leaves the
    filesystem as it was; nothing is asked of the metadata directory. *)
Theorem get_metadata_missing_file
    (fs : filesystem) (w v path : string) :
  v ≠ "" →
  (get_paths w (Some v)).2 = Some path →
  path_exists fs path = false →
  get_metadata w v fs = (Returned (VMap ∅), fs).
Proof.
  intros Hv Hpath Hex. rewrite get_paths_verb in Hpath by done.
  injection Hpath as <-. by apply get_metadata_absent.
Qed.

(** C9: when the verb file exists and parses to the null document,
    [get_metadata] returns null, which is not a mapping; an
    [update_metadata] whose read step is this read replaces the null by an
    empty mapping and writes exactly the new data. *)
Theorem get_metadata_null_document
    (fs : filesystem) (w v path text : string) :
  (get_paths w (Some v)).2 = Some path →
  os_stat fs path = inr (File text) →
  yaml_load text = Some VNull →
  get_metadata w v fs = (Returned VNull, fs)
  ∧ (∀ m, VNull ≠ VMap m)
  ∧ py_or VNull (VMap ∅) = VMap ∅
  ∧ ∀ w0 new_data fs0,
      (get_paths w0 (Some v)).1 = w →
      init_metadata_dir w0 false fs0 = (Returned tt, fs) →
      update_metadata w0 v new_data fs0
      = write_file (get_paths w0 (Some v)).2 (yaml_dump (VMap new_data)) fs.
Proof.
  intros Hpath Hstat Hload.
  assert (get_metadata w v fs = (Returned VNull, fs)) as Hget.
  { unfold get_metadata. destruct (get_paths w (Some v)) as [md p].
    simpl in Hpath. subst p.
    unfold bind at 1, os_path_exists, gets, path_exists. rewrite Hstat.
    simpl. unfold bind, read_file. by rewrite Hstat, Hload. }
  split; [done |]. split; [done |]. split; [done |].
  intros w0 new_data fs0 Hmd Hinit. unfold update_metadata.
  destruct (get_paths w0 (Some v)) as [md p]. simpl in Hmd. subst md.
  erewrite bind_returned by done.
  erewrite bind_returned by done.
  simpl. by rewrite (right_id_L ∅ (∪) new_data).
Qed.


(** The second of two updates does not see the document written by the
    first: what is read back is the second mapping alone. *)
Lemma update_metadata_replaces_document fs w k v d1 d2 :
  workspace_ready fs w k →
  plain_verb v →
  path_ok (join (join w METADATA_DIR_NAME) (verb_file_name (Some v))) = true →
  node_at fs (verb_file_at k v) ≠ Some Dir →
  node_at fs (read_location_at k v) = None →
  yaml_load (yaml_dump (VMap d2)) = Some (VMap d2) →
  ∃ fs1 fs2,
    update_metadata w v d1 fs = (Returned tt, fs1)
    ∧ update_metadata w v d2 fs1 = (Returned tt, fs2)
    ∧ get_metadata w v fs2 = (Returned (VMap d2), fs2).
Proof.
  intros Hready Hv Hok Hfile Hloc Hcodec.
  pose proof (workspace_ready_passes _ _ _ Hready) as Hp.
  pose proof Hv as [Hne _].
  destruct (initialised_passes _ _ _ Hp) as (Hl' & _ & _).
  pose proof Hp as [_ _ _ Hmd _ _].
  assert (get_metadata (join w METADATA_DIR_NAME) v (initialised k fs)
          = (Returned (VMap ∅), initialised k fs)) as Hread.
  { apply get_metadata_absent; [done |].
    eapply read_location_absent; try done.
    rewrite node_at_initialised by done.
    rewrite !decide_False by key_length_neq. done. }
  set (t1 := yaml_dump (VMap d1)).
  destruct (updated_passes fs w k v t1 Hp Hfile) as (Hp1 & Hinit1 & Hfile1 & _).
  exists (updated k v t1 fs),
    (updated k v (yaml_dump (VMap d2)) (updated k v t1 fs)).
  split; [by apply update_metadata_ready |]. split.
  - rewrite (update_metadata_at _ w k v d2 (VMap ∅) ∅);
      [by rewrite (right_id_L ∅ (∪) d2) | done | done | done
      | by rewrite Hfile1 | | done].
    rewrite Hinit1, read_location_unchanged by done.
    unfold result_of. by rewrite Hread.
  - rewrite (get_metadata_updated _ w k);
      [by rewrite Hcodec | done | done | done | by rewrite Hfile1].
Qed.

(** The merge step itself is shallow: a key of the new data takes the new
    value whole, any other key keeps the value of the current document. *)
Lemma dict_update_shallow (data new_data : gmap string value) fs key :
  ∃ merged,
    dict_update (VMap data) new_data fs = (Returned (VMap merged), fs)
    ∧ merged !! key = match new_data !! key with
                      | Some x => Some x
                      | None => data !! key
                      end.
Proof.
  eexists. split; [done |]. rewrite lookup_union.
  by destruct (new_data !! key), (data !! key).
Qed.

(** C8 (amended): for a workspace whose metadata directory exists, whose
    path still resolves once that directory is deleted and whose README
    path is within the limits of the system, [init_metadata_dir] with reset
    leaves under the metadata directory nothing but the directory itself
    and a fresh README and leaves everything else alone.  [get_metadata]
    then returns the empty mapping for every verb whose file path does not
    lead to an entry outside the metadata directory that was there before,
    in particular for every non-empty verb that does not begin with a
    separator and has no [..] component.  Without reset only the README can
    change. *)
Theorem init_metadata_dir_reset
    (fs : filesystem) (w : string) (k : list string) :
  resolve fs w = inr k →
  node_at fs k = Some Dir →
  node_at fs (metadata_dir_at k) = Some Dir →
  resolve (remove_tree (metadata_dir_at k) fs) w = inr k →
  path_ok (join (join w METADATA_DIR_NAME) "README") = true →
  ∃ fs',
    init_metadata_dir w true fs = (Returned tt, fs')
    ∧ (∀ key, metadata_dir_at k `prefix_of` key →
         node_at fs' key
         = if decide (key = metadata_dir_at k) then Some Dir
           else if decide (key = readme_at k)
           then Some (File METADATA_README_TEXT)
           else None)
    ∧ (∀ key, ¬ metadata_dir_at k `prefix_of` key →
         node_at fs' key = node_at fs key)
    ∧ (∀ v path,
         (get_paths w (Some v)).2 = Some path →
         (∀ loc, locate fs' path = inr loc →
            metadata_dir_at k `prefix_of` loc ∨ node_at fs loc = None) →
         get_metadata w v fs' = (Returned (VMap ∅), fs'))
    ∧ (∀ v, v ≠ "" → startswith_sep v = false → ".." ∉ components v →
         get_metadata w v fs' = (Returned (VMap ∅), fs'))
    ∧ (∀ key, key ≠ readme_at k →
         node_at (state_after (init_metadata_dir w false) fs) key
         = node_at fs key).
Proof.
  intros Hr Hk Hmd Hr1 Hok. exists (reset_state k fs).
  destruct (path_ok_metadata_dir w "README" plain_name_readme
              (resolve_nonempty _ _ _ Hr) Hok) as [Hokmd Hokw].
  pose proof (locate_of_resolve _ _ _ Hokw Hr) as Hl.
  pose proof (locate_of_resolve _ _ _ Hokw Hr1) as Hl1.
  destruct (reset_state_resolve fs w k Hk Hl1) as (Hl' & Hk' & Hmd').
  pose proof (locate_metadata_dir _ _ _ Hl' Hk' Hokmd) as Hlmd'.
  assert (∀ v path,
            (get_paths w (Some v)).2 = Some path →
            (∀ loc, locate (reset_state k fs) path = inr loc →
               metadata_dir_at k `prefix_of` loc ∨ node_at fs loc = None) →
            get_metadata w v (reset_state k fs)
            = (Returned (VMap ∅), reset_state k fs)) as Hget.
  { intros v path Hpath Hout.
    destruct (decide (v = "")) as [-> | Hne]; [done |].
    rewrite get_paths_verb in Hpath by done. injection Hpath as <-.
    apply get_metadata_absent; [done |].
    destruct (locate (reset_state k fs)
                (join (join w METADATA_DIR_NAME) (verb_file_name (Some v))))
      as [e | loc] eqn:Hloc; [by eapply path_exists_unlocated |].
    rewrite (path_exists_at _ _ _ Hloc).
    destruct (Hout _ eq_refl) as [Hin | Hnone].
    - destruct (verb_file_located _ _ _ _ Hloc) as (loc0 & l & ->).
      rewrite node_at_reset_state.
      rewrite decide_False.
      2: { unfold readme_at. intros [_ E]%app_inj_tail.
           by apply verb_file_name_not_readme in E. }
      rewrite decide_False.
      2: { unfold metadata_dir_at. intros [_ E]%app_inj_tail.
           by apply verb_file_name_not_metadata_dir in E. }
      by rewrite decide_True.
    - destruct (verb_file_located _ _ _ _ Hloc) as (loc0 & l & ->).
      rewrite node_at_reset_state.
      rewrite decide_False.
      2: { unfold readme_at. intros [_ E]%app_inj_tail.
           by apply verb_file_name_not_readme in E. }
      rewrite decide_False.
      2: { unfold metadata_dir_at. intros [_ E]%app_inj_tail.
           by apply verb_file_name_not_metadata_dir in E. }
      case_decide; [done | by rewrite Hnone]. }
  split; [by apply init_metadata_dir_reset_ready |].
  split; [| split; [| split; [| split]]].
  - intros key Hp. rewrite node_at_reset_state.
    destruct (decide (key = metadata_dir_at k)) as [-> | E1].
    { by rewrite decide_False by (symmetry; key_length_neq). }
    destruct (decide (key = readme_at k)) as [-> | E2]; [done |].
    by rewrite decide_True.
  - intros key Hp. rewrite node_at_reset_state.
    rewrite decide_False.
    2: { intros ->. apply Hp. by apply prefix_app_r. }
    rewrite decide_False by (by intros ->).
    by rewrite decide_False.
  - exact Hget.
  - intros v Hne Hsep Hdd.
    apply (Hget v (join (join w METADATA_DIR_NAME) (verb_file_name (Some v)))).
    + by rewrite get_paths_verb.
    + intros loc Hloc. left. by eapply verb_file_inside.
  - intros key Hkey. by apply (init_metadata_dir_keep fs w k).
Qed.

End DocumentClaims.

(** ** The module run on the example filesystems *)

(** Closed statements about runs on the example filesystems are settled by
    evaluation, conjunct by conjunct. *)
Ltac evaluate :=
  cbv zeta; repeat match goal with |- _ ∧ _ => split end;
  vm_compute; reflexivity.

Section Runs.
Import Examples.
Local Existing Instance FlatYaml.codec.

Lemma flat_codec_reads_back_a1 : yaml_load (yaml_dump (VMap a1)) = Some (VMap a1).
Proof. vm_compute. reflexivity. Qed.

(** C1: the second update replaces the document instead of merging into
    it.  After [{a: 1}] and then [{b: 2}] have been written for the verb
    [v] of the workspace [/w], the document read back is [{b: 2}]: the key
    [a] of the first update is gone, because the current document is
    looked for under the metadata directory of the metadata directory. *)
Theorem update_metadata_drops_previous_keys :
  let fs1 := state_after (update_metadata "/w" "v" a1) fs_plain in
  let fs2 := state_after (update_metadata "/w" "v" b2) fs1 in
  result_of (update_metadata "/w" "v" a1) fs_plain = Returned tt
  ∧ result_of (get_metadata "/w" "v") fs1 = Returned (VMap a1)
  ∧ result_of (get_metadata "/w/.catkin_tools" "v") fs1 = Returned (VMap ∅)
  ∧ result_of (update_metadata "/w" "v" b2) fs1 = Returned tt
  ∧ result_of (get_metadata "/w" "v") fs2 = Returned (VMap b2)
  ∧ a1 !! "a" = Some (VInt 1)
  ∧ b2 !! "a" = None.
Proof. evaluate. Qed.

(** C5: a workspace found at the empty path is not reported.  In the
    working directory [/home], itself a workspace, discovery from the
    relative path [a] returns the empty path, which is not [a]; the
    truthiness test takes it for "nothing found", no error is raised and
    a nested workspace is created.  On the absolute path of the same
    directory the error is raised and nothing changes. *)
Theorem init_metadata_dir_misses_workspace_at_empty_path :
  path_exists fs_home_workspace "a" = true
  ∧ is_workspace fs_home_workspace "a" = false
  ∧ find_enclosing_workspace fs_home_workspace "a" = Some ""
  ∧ result_of (init_metadata_dir "a" false) fs_home_workspace = Returned tt
  ∧ is_workspace (state_after (init_metadata_dir "a" false) fs_home_workspace) "a"
    = true
  ∧ find_enclosing_workspace fs_home_workspace "/home/a" = Some "/home"
  ∧ init_metadata_dir "/home/a" false fs_home_workspace
    = (Raised (IOError (nested_message "/home/a" "/home")), fs_home_workspace).
Proof. evaluate. Qed.

(** C6: discovery misses the enclosing workspace of a start path that
    ends with a separator or is relative.  Below the workspace [/home],
    with working directory [/home/a], the directory [/home/a/pkg] is given
    as [/home/a/pkg], [/home/a/pkg/], [pkg] and [.]: the closest workspace
    among the directory and its ancestors is [/home] each time, and
    [find_enclosing_workspace] returns it for the first path only.  For the
    others it returns [None], having looked at no parent directory. *)
Theorem find_enclosing_workspace_misses_ancestors :
  (path_isdir fs_below_workspace "/home/a/pkg" = true
   ∧ closest_workspace fs_below_workspace "/home/a/pkg" = Some ["home"]
   ∧ find_enclosing_workspace fs_below_workspace "/home/a/pkg" = Some "/home")
  ∧ (path_isdir fs_below_workspace "/home/a/pkg/" = true
     ∧ closest_workspace fs_below_workspace "/home/a/pkg/" = Some ["home"]
     ∧ find_enclosing_workspace fs_below_workspace "/home/a/pkg/" = None)
  ∧ (path_isdir fs_below_workspace "pkg" = true
     ∧ closest_workspace fs_below_workspace "pkg" = Some ["home"]
     ∧ find_enclosing_workspace fs_below_workspace "pkg" = None)
  ∧ (path_isdir fs_below_workspace "." = true
     ∧ closest_workspace fs_below_workspace "." = Some ["home"]
     ∧ find_enclosing_workspace fs_below_workspace "." = None).
Proof. evaluate. Qed.

(** C7: the loop ends before the filesystem root is reached.  From
    [/home/a/pkg] it makes three passes and finds [/home]; from
    [/home/a/pkg/] it returns [None] in its first pass, on the start path
    itself, whose split has an empty tail; from [pkg] it returns [None] in
    its second pass, on the empty path, which names nothing.  The
    directory has four ancestors to visit, itself included, the last of
    them the root. *)
Theorem find_enclosing_workspace_stops_before_root :
  loop_run fs_below_workspace "/home/a/pkg" 3 "/home" (Some "/home")
  ∧ (loop_run fs_below_workspace "/home/a/pkg/" 1 "/home/a/pkg/" None
     ∧ PosixPath.split "/home/a/pkg/" = ("/home/a/pkg", "")
     ∧ resolve fs_below_workspace "/home/a/pkg/" = inr ["home"; "a"; "pkg"])
  ∧ (loop_run fs_below_workspace "pkg" 2 "" None
     ∧ PosixPath.split "pkg" = ("", "pkg")
     ∧ resolve fs_below_workspace "pkg" = inr ["home"; "a"; "pkg"]
     ∧ resolve fs_below_workspace "" = inl ENOENT)
  ∧ ancestry ["home"; "a"; "pkg"]
    = [["home"; "a"; "pkg"]; ["home"; "a"]; ["home"]; []]
  ∧ closest_workspace fs_below_workspace "/home/a/pkg/" = Some ["home"]
  ∧ closest_workspace fs_below_workspace "pkg" = Some ["home"].
Proof.
  split; [| split; [| split; [| evaluate]]].
  - eapply run_continue; [vm_compute; reflexivity |].
    eapply run_continue; [vm_compute; reflexivity |].
    apply run_return. vm_compute. reflexivity.
  - split; [| evaluate].
    apply run_return. vm_compute. reflexivity.
  - split; [| evaluate].
    eapply run_continue; [vm_compute; reflexivity |].
    apply run_return. vm_compute. reflexivity.
Qed.


(** C3, as stated, fails for the empty verb: no verb file exists (not
    even the metadata directory does) and [get_metadata] raises
    [TypeError]. *)
Lemma get_metadata_empty_verb_raises :
  path_exists fs_plain "/w/.catkin_tools" = false
  ∧ (get_paths "/w" (Some "")).2 = None
  ∧ get_metadata "/w" "" fs_plain = (Raised TypeError, fs_plain).
Proof. evaluate. Qed.

(** C8, as stated, fails: after a reset [get_metadata] raises
    [TypeError] for the empty verb, and for the verb [../x] it returns the
    document [/w/x.yml], which lies outside the metadata directory.  A
    workspace path that leads through the metadata directory no longer
    resolves once the directory is deleted, so the directory is not made
    again.  And with a workspace path of 4076 characters the metadata
    directory is deleted and made again, but the path of the README is too
    long for it to be written. *)
Lemma get_metadata_after_reset_fails :
  (let fs := state_after (init_metadata_dir "/w" true) fs_outside_document in
   is_workspace fs_outside_document "/w" = true
   ∧ result_of (init_metadata_dir "/w" true) fs_outside_document = Returned tt
   ∧ result_of (get_metadata "/w" "") fs = Raised TypeError
   ∧ result_of (get_metadata "/w" "../x") fs = Returned (VMap a1))
  ∧ (let w := "/w/.catkin_tools/.." in
     path_exists fs_outside_document w = true
     ∧ is_workspace fs_outside_document w = true
     ∧ result_of (init_metadata_dir w true) fs_outside_document
       = Raised (OSError ENOENT "/w/.catkin_tools/../.catkin_tools")
     ∧ path_exists (state_after (init_metadata_dir w true) fs_outside_document)
         "/w/.catkin_tools" = false)
  ∧ (String.length long_w = 4076
     ∧ resolve fs_outside_document long_w = inr ["w"]
     ∧ is_workspace fs_outside_document long_w = true
     ∧ result_of (init_metadata_dir long_w true) fs_outside_document
       = Raised (OSError ENAMETOOLONG (long_w +:+ "/.catkin_tools/README"))
     ∧ node_at (state_after (init_metadata_dir long_w true) fs_outside_document)
         ["w"; ".catkin_tools"; "README"] = None).
Proof. evaluate. Qed.

End Runs.

(** ** The theorems at concrete inputs *)

Section Witnesses.
Import Examples.

Lemma get_paths_empty_verb_is_no_verb_witness :
  (get_paths "/w" (Some "")).2 = None
  ∧ ∃ stem, (get_paths "/w" (Some "build")).2 = Some (stem +:+ ".yml").
Proof.
  destruct (get_paths_empty_verb_is_no_verb "/w") as (Hnone & _ & Hsome).
  split; [exact Hnone |]. apply Hsome. discriminate.
Defined.

Lemma plain_components_home_a : Forall plain_component ["home"; "a"].
Proof. repeat constructor; discriminate. Defined.

Lemma find_enclosing_workspace_innermost_witness :
  find_enclosing_workspace fs_home_workspace "/home/a" = Some "/home"
  ∧ find_enclosing_workspace fs_plain "/w" = None
  ∧ upward_walk "/home/a" = ["/home/a"; "/home"; "/"].
Proof.
  split; [| split].
  - destruct (find_enclosing_workspace_innermost fs_home_workspace "/home/a")
      as (_ & Hfirst & _ & _).
    apply Hfirst. exists ["/home/a"], ["/"].
    split; [reflexivity |]. split; [reflexivity |].
    constructor; [reflexivity | constructor].
  - destruct (find_enclosing_workspace_innermost fs_plain "/w")
      as (_ & _ & Hnone & _).
    apply Hnone. intros q Hq.
    assert (upward_walk "/w" = ["/w"; "/"]) as E by reflexivity.
    rewrite E in Hq.
    apply elem_of_cons in Hq as [-> | Hq]; [reflexivity |].
    apply elem_of_cons in Hq as [-> | Hq]; [reflexivity |].
    by apply elem_of_nil in Hq.
  - destruct (find_enclosing_workspace_innermost fs_plain "/home/a")
      as (_ & _ & _ & _ & Hwalk).
    apply (Hwalk ["home"; "a"]); [exact plain_components_home_a | reflexivity].
Defined.

Lemma find_enclosing_workspace_terminates_witness :
  ∃ n q,
    loop_run fs_plain "/home/a" n q None
    ∧ n ≤ 3
    ∧ find_enclosing_workspace_loop 3 fs_plain "/home/a" = Some None
    ∧ (PosixPath.split q).2 = ""
    ∧ q = "/".
Proof.
  destruct (find_enclosing_workspace_terminates fs_plain "/home/a")
    as (n & q & Hrun & Hn & Hfuel & Hnone).
  destruct Hnone as (Htail & _ & _ & Hroot); [reflexivity |].
  exists n, q. split; [exact Hrun |]. split; [exact Hn |].
  split; [exact (Hfuel 3 Hn) |]. split; [exact Htail |].
  apply (Hroot ["home"; "a"]); [exact plain_components_home_a | reflexivity].
Defined.

Lemma init_metadata_dir_missing_path_witness :
  init_metadata_dir "/nowhere" true fs_plain
  = (Raised (IOError (not_exist_message "/nowhere")), fs_plain).
Proof. apply init_metadata_dir_missing_path. reflexivity. Defined.

Lemma get_metadata_missing_file_witness :
  path_exists fs_plain "/w/.catkin_tools" = false
  ∧ @get_metadata FlatYaml.codec "/w" "build" fs_plain
    = (Returned (VMap ∅), fs_plain).
Proof.
  split; [reflexivity |].
  apply (@get_metadata_missing_file FlatYaml.codec fs_plain "/w" "build"
           "/w/.catkin_tools/build.yml").
  - discriminate.
  - reflexivity.
  - reflexivity.
Defined.


Lemma plain_verb_build : plain_verb "build".
Proof. split; [discriminate | reflexivity]. Defined.


Lemma no_parent_component_build : ".." ∉ PosixPath.components "build".
Proof. apply (bool_decide_unpack _). vm_compute. exact I. Defined.

Lemma no_parent_component_sub_x : ".." ∉ PosixPath.components "sub/x".
Proof. apply (bool_decide_unpack _). vm_compute. exact I. Defined.

Lemma init_metadata_dir_reset_witness :
  let fs := updated ["w"] "build" ("a: 1" +:+ FlatYaml.nl) fs_plain in
  @get_metadata FlatYaml.codec "/w" "build" fs = (Returned (VMap a1), fs)
  ∧ ∃ fs',
      init_metadata_dir "/w" true fs = (Returned tt, fs')
      ∧ @get_metadata FlatYaml.codec "/w" "build" fs' = (Returned (VMap ∅), fs')
      ∧ @get_metadata FlatYaml.codec "/w" "sub/x" fs' = (Returned (VMap ∅), fs').
Proof.
  intros fs. split; [vm_compute; reflexivity |].
  destruct (@init_metadata_dir_reset FlatYaml.codec fs "/w" ["w"])
    as (fs' & Hinit & _ & _ & _ & Hget & _).
  - reflexivity.
  - reflexivity.
  - reflexivity.
  - vm_compute. reflexivity.
  - reflexivity.
  - exists fs'. split; [exact Hinit |]. split.
    + apply Hget;
        [discriminate | reflexivity | exact no_parent_component_build].
    + apply Hget;
        [discriminate | reflexivity | exact no_parent_component_sub_x].
Defined.

Lemma get_metadata_null_document_witness :
  let fs0 := fs_read_location "v" "" in
  let fs := initialised ["w"] fs0 in
  @get_metadata FlatYaml.codec "/w/.catkin_tools" "v" fs = (Returned VNull, fs)
  ∧ @update_metadata FlatYaml.codec "/w" "v" a1 fs0
    = write_file (Some "/w/.catkin_tools/v.yml")
        ("a: 1" +:+ FlatYaml.nl) fs.
Proof.
  intros fs0 fs.
  destruct (@get_metadata_null_document FlatYaml.codec fs "/w/.catkin_tools" "v"
              "/w/.catkin_tools/.catkin_tools/v.yml" "")
    as (Hget & _ & _ & Hupdate).
  - reflexivity.
  - vm_compute. reflexivity.
  - reflexivity.
  - split; [exact Hget |].
    apply (Hupdate "/w" a1 fs0).
    + reflexivity.
    + vm_compute. reflexivity.
Defined.

End Witnesses.


(** * Further properties of the module *)

(** ** What a successful run tells *)

Section Inversion.
Import PosixPath PosixPathFacts.

(** Whatever the input, after [init_metadata_dir] has returned the
    workspace path names a directory that holds the metadata directory,
    which holds the README with its fixed text. *)
Lemma init_metadata_dir_success w reset fs fs' :
  init_metadata_dir w reset fs = (Returned tt, fs') →
  ∃ k, locate fs' w = inr k ∧ node_at fs' k = Some Dir
       ∧ locate fs' (join w METADATA_DIR_NAME) = inr (metadata_dir_at k)
       ∧ node_at fs' (metadata_dir_at k) = Some Dir
       ∧ locate fs' (join (join w METADATA_DIR_NAME) "README") = inr (readme_at k)
       ∧ node_at fs' (readme_at k) = Some (File METADATA_README_TEXT).
Proof.
  rewrite init_metadata_dir_unfold.
  destruct (path_exists fs w) eqn:Hex; [| done]. cbn [negb].
  destruct (str_truthy _ && _); [done |].
  intros (_ & fs2 & _ & Hwrite)%bind_returned_inv.
  apply write_file_inv in Hwrite as (path & kr & [= <-] & Hr & Hnode & Hkr & ->).
  apply path_exists_nonempty in Hex.
  destruct (readme_written_inv _ _ _ Hex Hr) as (k & Hrw & Hk & Hlmd & Hmd & ->).
  assert (dirs_kept fs2 (set_node (readme_at k) (File METADATA_README_TEXT) fs2))
    as Hkept by (apply set_node_dirs_kept; [done | by left]).
  exists k. split; [by eapply locate_mono |].
  split; [by apply Hkept |]. split; [by eapply locate_mono |].
  split; [by apply Hkept |]. split; [by eapply locate_mono |].
  rewrite node_at_set_node by done. by rewrite decide_True.
Qed.

End Inversion.

(** ** Initialisation *)

Section InitialisationProperties.
Import PosixPath PosixPathFacts.

(** X1: whatever the path and the reset flag, when [init_metadata_dir]
    returns, the path is a workspace that discovery finds at once, and the
    README inside its metadata directory is a file with the fixed, non-empty
    text. *)
Theorem init_metadata_dir_makes_workspace
    (w : string) (reset : bool) (fs fs' : filesystem) :
  init_metadata_dir w reset fs = (Returned tt, fs') →
  is_workspace fs' w = true
  ∧ find_enclosing_workspace fs' w = Some w
  ∧ read_file (Some (join (get_paths w None).1 "README")) fs'
    = (Returned METADATA_README_TEXT, fs')
  ∧ METADATA_README_TEXT ≠ "".
Proof.
  intros (k & Hr & Hk & Hlmd & Hmd & Hlreadme & Hreadme)%init_metadata_dir_success.
  assert (is_workspace fs' w = true) as Hws
    by (rewrite (is_workspace_at _ _ _ Hlmd); fold (metadata_dir_at k);
        by rewrite Hmd).
  split; [done |]. split; [by apply find_enclosing_workspace_self |].
  split; [| done].
  rewrite get_paths_no_verb. simpl fst.
  by apply read_file_at with (k := readme_at k).
Qed.

(** X2: [init_metadata_dir] without reset is idempotent after any
    successful initialisation: run again on the resulting filesystem it
    returns and changes nothing. *)
Theorem init_metadata_dir_idempotent
    (w : string) (reset : bool) (fs fs' : filesystem) :
  init_metadata_dir w reset fs = (Returned tt, fs') →
  init_metadata_dir w false fs' = (Returned tt, fs').
Proof.
  intros (k & Hr & Hk & Hlmd & Hmd & Hlreadme & Hreadme)%init_metadata_dir_success.
  rewrite init_metadata_dir_passes; cycle 1.
  { by rewrite (path_exists_at _ _ _ Hr), Hk. }
  { right; left. apply find_enclosing_workspace_self.
    rewrite (is_workspace_at _ _ _ Hlmd). fold (metadata_dir_at k).
    by rewrite Hmd. }
  rewrite (path_exists_at _ _ _ Hlmd), Hmd.
  erewrite bind_returned by done.
  rewrite (write_file_at fs' _ (readme_at k)).
  - by rewrite set_node_same by (done || apply app_neq_nil).
  - done.
  - by rewrite Hreadme.
Qed.

(** X10: where the workspace path names a directory, the metadata
    directory path of [get_paths] names its entry [.catkin_tools], whether
    or not the workspace path ends with a separator, and the file path of a
    plain verb names the entry [<verb>.yml] of the metadata directory.  A
    verb that begins with a separator gets a file path that is the verb
    with [.yml] alone, outside the workspace. *)
Theorem get_paths_layout
    (fs : filesystem) (w : string) (k : list string) (v : string) :
  resolve fs w = inr k →
  node_at fs k = Some Dir →
  resolve fs (get_paths w (Some v)).1 = inr (k ++ [".catkin_tools"])
  ∧ resolve fs (get_paths (w +:+ "/") (Some v)).1 = inr (k ++ [".catkin_tools"])
  ∧ (plain_verb v → node_at fs (k ++ [".catkin_tools"]) = Some Dir →
     ∃ path, (get_paths w (Some v)).2 = Some path
             ∧ resolve fs path = inr (k ++ [".catkin_tools"] ++ [v +:+ ".yml"]))
  ∧ (startswith_sep v = true →
     (get_paths w (Some v)).2 = Some (v +:+ ".yml")).
Proof.
  intros Hr Hk.
  pose proof (resolve_metadata_dir _ _ _ Hr Hk) as Hrmd.
  split; [done |]. split; [| split].
  - simpl fst. apply resolve_metadata_dir; [| done].
    pose proof (resolve_nonempty _ _ _ Hr) as Hne.
    unfold resolve in *. rewrite is_empty_app, startswith_sep_app by done.
    rewrite Hne in Hr.
    unfold components in *. rewrite split_on_app_sep, walk_app, Hr.
    by rewrite walk_empty_component, Hk.
  - intros Hv Hmd. pose proof Hv as [Hne _].
    rewrite get_paths_verb by done. eexists. split; [done |].
    rewrite app_assoc.
    by apply resolve_in_metadata_dir; [apply plain_verb_file_name | | |].
  - intros Hsep. assert (v ≠ "") as Hne by by destruct v.
    rewrite get_paths_verb by done. simpl snd. f_equal.
    unfold join, verb_file_name. simpl py_str.
    by replace (startswith_sep (v +:+ ".yml")) with true by by destruct v.
Qed.

End InitialisationProperties.

(** ** Reading and updating *)

Section UpdateProperties.
Import PosixPath PosixPathFacts.
Context `{YamlCodec}.

Lemma app_str_inj_r (a b c : string) : a +:+ c = b +:+ c → a = b.
Proof.
  revert b. induction a as [|x a IH]; intros b Heq.
  - destruct b as [|y b]; [done |].
    apply (f_equal String.length) in Heq.
    rewrite !length_app_str in Heq. simpl in Heq. lia.
  - destruct b as [|y b].
    + apply (f_equal String.length) in Heq.
      rewrite !length_app_str in Heq. simpl in Heq. lia.
    + simpl in Heq. injection Heq as -> Heq. f_equal. by apply IH.
Qed.

Lemma verb_file_at_inj k v1 v2 : verb_file_at k v1 = verb_file_at k v2 → v1 = v2.
Proof.
  unfold verb_file_at, verb_file_name. simpl py_str.
  intros [= E]%app_inv_head. by apply app_str_inj_r in E.
Qed.

(** X5: whatever the filesystem, when [update_metadata] returns, the verb
    file holds the dump of a mapping in which every key of the new data has
    its new value; the path is a workspace; and if the codec reads that
    dump back, [get_metadata] returns that mapping. *)
Theorem update_metadata_new_data_wins
    (fs fs' : filesystem) (w v : string) (new_data : gmap string value) :
  update_metadata w v new_data fs = (Returned tt, fs') →
  ∃ path merged,
    (get_paths w (Some v)).2 = Some path
    ∧ read_file (Some path) fs' = (Returned (yaml_dump (VMap merged)), fs')
    ∧ (∀ key x, new_data !! key = Some x → merged !! key = Some x)
    ∧ is_workspace fs' w = true
    ∧ (yaml_load (yaml_dump (VMap merged)) = Some (VMap merged) →
       get_metadata w v fs' = (Returned (VMap merged), fs')).
Proof.
  unfold update_metadata.
  destruct (get_paths w (Some v)) as [md p] eqn:Hpaths.
  intros ([] & fs1 & Hinit & Hrest)%bind_returned_inv.
  apply bind_returned_inv in Hrest as (current & fs1' & Hget & Hrest).
  pose proof (get_metadata_state md v fs1) as Hstate.
  rewrite Hget in Hstate. simpl in Hstate. subst fs1'.
  apply bind_returned_inv in Hrest as (data & fs1' & Hmerge & Hwrite).
  destruct (py_or current (VMap ∅)) as [| | | | | m0]; try done.
  injection Hmerge as <- <-.
  apply write_file_inv in Hwrite as (path & kk & -> & Hr & Hnode & Hkk & ->).
  assert (dirs_kept fs1
            (set_node kk (File (yaml_dump (VMap (new_data ∪ m0)))) fs1))
    as Hkept by (apply set_node_dirs_kept; [done | by left]).
  assert (locate (set_node kk (File (yaml_dump (VMap (new_data ∪ m0)))) fs1)
            path = inr kk) as Hr' by by eapply locate_mono.
  assert (node_at (set_node kk (File (yaml_dump (VMap (new_data ∪ m0)))) fs1) kk
          = Some (File (yaml_dump (VMap (new_data ∪ m0))))) as Hfile
    by (rewrite node_at_set_node by done; by rewrite decide_True).
  exists path, (new_data ∪ m0). split; [done |].
  split; [by eapply read_file_at |].
  split; [intros key x Hx; by apply lookup_union_Some_l |].
  split.
  - apply init_metadata_dir_success in Hinit as (k & _ & _ & Hlmd & Hmd & _).
    rewrite (is_workspace_at _ _ k) by by eapply locate_mono.
    fold (metadata_dir_at k). by rewrite (proj2 Hkept _ Hmd).
  - intros Hcodec. unfold get_metadata. rewrite Hpaths.
    unfold bind at 1, os_path_exists, gets.
    rewrite (path_exists_at _ _ _ Hr'), Hfile. cbn [negb].
    erewrite bind_returned by by eapply read_file_at.
    by rewrite Hcodec.
Qed.

(** X6: whenever [update_metadata] for a plain verb returns, the
    filesystem it leaves differs from the one it started on at three
    locations at most, all below the directory the workspace path names:
    the metadata directory, its README and the verb's file.  Every other
    location, other verbs' files among them, and the working directory are
    as before. *)
Theorem update_metadata_frame
    (fs fs' : filesystem) (w v : string) (new_data : gmap string value) :
  plain_verb v →
  update_metadata w v new_data fs = (Returned tt, fs') →
  ∃ k,
    resolve fs w = inr k
    ∧ cwd fs' = cwd fs
    ∧ ∀ key, key ≠ metadata_dir_at k → key ≠ readme_at k →
             key ≠ verb_file_at k v →
             node_at fs' key = node_at fs key.
Proof.
  intros Hv Hupdate.
  destruct (update_metadata_inv _ _ _ _ _ Hv Hupdate)
    as (k & current & m0 & Hp & _ & _ & _ & _ & ->).
  pose proof Hp as [Hl _ _ Hmd _ _].
  exists k. split; [by apply locate_resolve |].
  split; [apply cwd_updated |].
  intros key H1 H2 H3. rewrite node_at_updated by done.
  by rewrite !decide_False.
Qed.

(** X7: an update for one plain verb does not disturb another: when an
    update for a plain verb has returned and then an update for a different
    plain verb returns, [get_metadata] for the first verb gives after the
    second update what it gave before it. *)
Theorem update_metadata_verbs_independent
    (fs fs1 fs2 : filesystem) (w v1 v2 : string)
    (d1 d2 : gmap string value) :
  plain_verb v1 → plain_verb v2 → v1 ≠ v2 →
  update_metadata w v1 d1 fs = (Returned tt, fs1) →
  update_metadata w v2 d2 fs1 = (Returned tt, fs2) →
  get_metadata w v1 fs2 = (result_of (get_metadata w v1) fs1, fs2).
Proof.
  intros Hv1 Hv2 Hne Hupdate1 Hupdate2.
  destruct (update_metadata_inv _ _ _ _ _ Hv1 Hupdate1)
    as (k & c1 & m1 & Hp & _ & Hfile1 & _ & _ & Hfs1).
  destruct (update_metadata_inv _ _ _ _ _ Hv2 Hupdate2)
    as (k2 & c2 & m2 & Hp2 & _ & Hfile2 & _ & _ & ->).
  destruct (updated_passes fs w k v1 (yaml_dump (VMap (d1 ∪ m1))) Hp Hfile1)
    as (Hp1 & _ & _ & _).
  rewrite <- Hfs1 in Hp1.
  assert (k2 = k) as ->.
  { destruct Hp1 as [Hl1 _ _ _ _ _], Hp2 as [Hl2 _ _ _ _ _]. congruence. }
  pose proof Hp1 as [Hl1 _ _ Hmd1 Hreadme1 _].
  assert (node_at fs1 (metadata_dir_at k) = Some Dir) as Hmd1'.
  { rewrite Hfs1. pose proof Hp as [_ _ _ Hmd _ _].
    rewrite node_at_updated by done.
    rewrite decide_False by (symmetry; key_length_neq).
    rewrite decide_False by (symmetry; key_length_neq).
    by rewrite decide_True. }
  rewrite get_metadata_eq. f_equal. apply get_metadata_agree.
  - by apply updated_dirs_kept.
  - split; [by rewrite cwd_updated |]. intros key.
    rewrite node_at_updated by done.
    repeat case_decide; subst; done.
  - intros path loc Hpath Hloc. pose proof Hv1 as [Hne1 _].
    rewrite get_paths_verb in Hpath by done. injection Hpath as <-.
    rewrite (verb_file_inv _ _ _ _ _ Hv1 Hl1 Hloc).
    rewrite node_at_updated by done.
    rewrite decide_False by (intros E%verb_file_at_inj; congruence).
    rewrite decide_False by apply verb_file_neq_readme.
    by rewrite decide_False by key_length_neq.
Qed.

(** X11: an update for a plain verb that has returned is idempotent: the
    same update run again on the filesystem it left returns too and leaves
    the filesystem exactly as it is. *)
Theorem update_metadata_idempotent
    (fs fs' : filesystem) (w v : string) (new_data : gmap string value) :
  plain_verb v →
  update_metadata w v new_data fs = (Returned tt, fs') →
  update_metadata w v new_data fs' = (Returned tt, fs').
Proof.
  intros Hv Hupdate.
  destruct (update_metadata_inv _ _ _ _ _ Hv Hupdate)
    as (k & current & m0 & Hp & Hok & Hfile & Hget & Hor & ->).
  set (text := yaml_dump (VMap (new_data ∪ m0))).
  destruct (updated_passes fs w k v text Hp Hfile)
    as (Hp' & Hinit' & Hfile' & _).
  rewrite (update_metadata_at _ w k v new_data current m0);
    [| done | done | done | by rewrite Hfile' | | done].
  - f_equal. fold text. unfold updated at 1. rewrite Hinit'.
    by apply set_node_same; [apply app_neq_nil |].
  - rewrite Hinit', read_location_unchanged by done.
    unfold result_of. by rewrite Hget.
Qed.

End UpdateProperties.

(** ** Discovery from inside a workspace *)

Section DescendantProperties.
Import PosixPath PosixPathFacts.

(** A pass on a path that is not a workspace and has a last component
    hands the search to the parent. *)
Lemma find_enclosing_workspace_parent fs p :
  is_workspace fs p = false → (split p).2 ≠ "" →
  find_enclosing_workspace fs p = find_enclosing_workspace fs (split p).1.
Proof.
  intros Hws Htail. unfold find_enclosing_workspace at 1. simpl.
  rewrite body_unfold, Hws.
  apply is_empty_false in Htail as Hempty. rewrite Hempty.
  by rewrite (split_depth p Htail).
Qed.

Lemma find_enclosing_workspace_descendant fs cs ds :
  Forall plain_component (cs ++ ds) →
  is_workspace fs (absolute cs) = true →
  (∀ ds1 ds2, ds = ds1 ++ ds2 → ds1 ≠ [] →
     is_workspace fs (absolute (cs ++ ds1)) = false) →
  find_enclosing_workspace fs (absolute (cs ++ ds)) = Some (absolute cs).
Proof.
  intros Hplain Hws. induction ds as [|d ds IH] using rev_ind; intros Hbetween.
  - rewrite app_nil_r. by apply find_enclosing_workspace_self.
  - rewrite app_assoc in Hplain |- *.
    apply Forall_app in Hplain as [Hplain [Hd _]%Forall_cons].
    pose proof (split_absolute_snoc (cs ++ ds) d Hplain Hd) as Hsplit.
    rewrite find_enclosing_workspace_parent.
    + rewrite Hsplit. simpl. apply IH; [done |]. intros ds1 ds2 -> Hne.
      apply (Hbetween ds1 (ds2 ++ [d])); [by rewrite app_assoc | done].
    + rewrite <- app_assoc. apply (Hbetween (ds ++ [d]) []);
        [by rewrite app_nil_r | by destruct ds].
    + rewrite Hsplit. simpl. by destruct Hd.
Qed.

(** X3: from a normalised absolute path below a workspace, with no
    workspace in between, discovery returns the workspace: the closest
    enclosing one, however many directories down the start path lies. *)
Theorem find_enclosing_workspace_from_descendant
    (fs : filesystem) (cs ds : list string) :
  Forall plain_component (cs ++ ds) →
  is_workspace fs (absolute cs) = true →
  (∀ ds1 ds2, ds = ds1 ++ ds2 → ds1 ≠ [] →
     is_workspace fs (absolute (cs ++ ds1)) = false) →
  find_enclosing_workspace fs (absolute (cs ++ ds)) = Some (absolute cs)
  ∧ string_prefix (absolute cs) (absolute (cs ++ ds)).
Proof.
  intros Hplain Hws Hbetween.
  pose proof (find_enclosing_workspace_descendant fs cs ds Hplain Hws Hbetween)
    as Hfind.
  split; [done |].
  rewrite find_enclosing_workspace_find in Hfind.
  apply find_some in Hfind as [Hin _].
  apply (upward_walk_from_prefix (S (depth (absolute (cs ++ ds))))).
  by apply list_elem_of_In.
Qed.

(** X4: [init_metadata_dir] on an existing directory strictly below a
    workspace (normalised absolute paths, no workspace in between) raises
    the error that names both paths, whatever the reset flag, and leaves
    the filesystem as it was. *)
Theorem init_metadata_dir_below_workspace
    (fs : filesystem) (cs ds : list string) (reset : bool) :
  Forall plain_component (cs ++ ds) →
  ds ≠ [] →
  path_exists fs (absolute (cs ++ ds)) = true →
  is_workspace fs (absolute cs) = true →
  (∀ ds1 ds2, ds = ds1 ++ ds2 → ds1 ≠ [] →
     is_workspace fs (absolute (cs ++ ds1)) = false) →
  init_metadata_dir (absolute (cs ++ ds)) reset fs
  = (Raised (IOError (nested_message (absolute (cs ++ ds)) (absolute cs))), fs).
Proof.
  intros Hplain Hds Hex Hws Hbetween.
  apply init_metadata_dir_nested; [done | | apply absolute_nonempty |].
  - by apply find_enclosing_workspace_descendant.
  - intros Heq. apply (f_equal depth) in Heq.
    pose proof Hplain as [Hcs _]%Forall_app.
    rewrite !depth_absolute, length_app in Heq by done.
    destruct ds; [done | simpl in Heq; lia].
Qed.

(** X9: [update_metadata] writes nothing where [init_metadata_dir]
    refuses the path.  On a path that does not exist it raises the error
    that says so; on an existing directory strictly below a workspace
    (normalised absolute paths, no workspace in between) it raises the
    error that names both paths.  In both cases the filesystem is left as
    it was, whatever the verb and the new data. *)
Theorem update_metadata_refused `{YamlCodec}
    (fs : filesystem) (w v : string) (new_data : gmap string value) :
  (path_exists fs w = false →
   update_metadata w v new_data fs
   = (Raised (IOError (not_exist_message w)), fs))
  ∧ (∀ cs ds,
       w = absolute (cs ++ ds) →
       Forall plain_component (cs ++ ds) →
       ds ≠ [] →
       path_exists fs w = true →
       is_workspace fs (absolute cs) = true →
       (∀ ds1 ds2, ds = ds1 ++ ds2 → ds1 ≠ [] →
          is_workspace fs (absolute (cs ++ ds1)) = false) →
       update_metadata w v new_data fs
       = (Raised (IOError (nested_message w (absolute cs))), fs)).
Proof.
  split.
  - intros Hex. unfold update_metadata.
    destruct (get_paths w (Some v)) as [md p].
    apply bind_raised. by rewrite init_metadata_dir_unfold, Hex.
  - intros cs ds -> Hplain Hds Hex Hws Hbetween. unfold update_metadata.
    destruct (get_paths (absolute (cs ++ ds)) (Some v)) as [md p].
    apply bind_raised.
    apply init_metadata_dir_nested; [done | | apply absolute_nonempty |].
    + by apply find_enclosing_workspace_descendant.
    + intros Heq. apply (f_equal depth) in Heq.
      pose proof Hplain as [Hcs _]%Forall_app.
      rewrite !depth_absolute, length_app in Heq by done.
      destruct ds; [done | simpl in Heq; lia].
Qed.

End DescendantProperties.

Section DiscoveryProperties.

(** X12: what discovery returns is a workspace, and discovery from it
    returns it again. *)
Theorem find_enclosing_workspace_fixed_point
    (fs : filesystem) (p c : string) :
  find_enclosing_workspace fs p = Some c →
  is_workspace fs c = true ∧ find_enclosing_workspace fs c = Some c.
Proof.
  rewrite find_enclosing_workspace_find. intros [_ Hws]%find_some.
  split; [done |]. by apply find_enclosing_workspace_self.
Qed.

End DiscoveryProperties.

(** ** The further properties at concrete inputs *)

Section FurtherWitnesses.
Import Examples.

Lemma init_metadata_dir_makes_workspace_witness :
  let fs' := initialised ["w"] fs_plain in
  is_workspace fs_plain "/w" = false
  ∧ is_workspace fs' "/w" = true
  ∧ find_enclosing_workspace fs' "/w" = Some "/w"
  ∧ read_file (Some "/w/.catkin_tools/README") fs'
    = (Returned METADATA_README_TEXT, fs').
Proof.
  intros fs'. split; [reflexivity |].
  destruct (init_metadata_dir_makes_workspace "/w" false fs_plain fs')
    as (Hws & Hfind & Hreadme & _).
  - vm_compute. reflexivity.
  - split; [exact Hws |]. split; [exact Hfind | exact Hreadme].
Defined.

Lemma init_metadata_dir_idempotent_witness :
  let fs' := initialised ["w"] fs_plain in
  init_metadata_dir "/w" false fs' = (Returned tt, fs').
Proof.
  intros fs'. apply (init_metadata_dir_idempotent "/w" true fs_plain fs').
  vm_compute. reflexivity.
Defined.

Lemma nothing_between_home_and_a :
  ∀ ds1 ds2 : list string, ["a"] = ds1 ++ ds2 → ds1 ≠ [] →
    is_workspace fs_home_workspace (absolute (["home"] ++ ds1)) = false.
Proof.
  intros ds1 ds2 Heq Hne.
  destruct ds1 as [|x [|y ds1]]; [done | | discriminate].
  injection Heq as <- _. reflexivity.
Defined.

Lemma find_enclosing_workspace_from_descendant_witness :
  find_enclosing_workspace fs_home_workspace "/home/a" = Some "/home"
  ∧ string_prefix "/home" "/home/a".
Proof.
  apply (find_enclosing_workspace_from_descendant fs_home_workspace ["home"] ["a"]).
  - exact plain_components_home_a.
  - reflexivity.
  - exact nothing_between_home_and_a.
Defined.

Lemma init_metadata_dir_below_workspace_witness :
  init_metadata_dir "/home/a" true fs_home_workspace
  = (Raised (IOError (nested_message "/home/a" "/home")), fs_home_workspace).
Proof.
  apply (init_metadata_dir_below_workspace fs_home_workspace ["home"] ["a"] true).
  - exact plain_components_home_a.
  - discriminate.
  - reflexivity.
  - reflexivity.
  - exact nothing_between_home_and_a.
Defined.

Lemma update_metadata_new_data_wins_witness :
  let fs' := updated ["w"] "build" ("a: 1" +:+ FlatYaml.nl) fs_plain in
  ∃ path merged,
    (get_paths "/w" (Some "build")).2 = Some path
    ∧ read_file (Some path) fs'
      = (Returned (@yaml_dump FlatYaml.codec (VMap merged)), fs')
    ∧ merged !! "a" = Some (VInt 1)
    ∧ is_workspace fs' "/w" = true.
Proof.
  intros fs'.
  destruct (@update_metadata_new_data_wins FlatYaml.codec fs_plain fs'
              "/w" "build" a1)
    as (path & merged & Hpath & Hread & Hkeys & Hws & _).
  - vm_compute. reflexivity.
  - exists path, merged. split; [exact Hpath |]. split; [exact Hread |].
    split; [| exact Hws]. apply Hkeys. reflexivity.
Defined.

Lemma update_metadata_frame_witness :
  let fs' := state_after (@update_metadata FlatYaml.codec "/w" "build" a1) fs_plain in
  cwd fs' = ["home"]
  ∧ node_at fs' ["home"] = Some Dir
  ∧ node_at fs' ["w"; ".catkin_tools"; "clean.yml"] = None.
Proof.
  intros fs'.
  destruct (@update_metadata_frame FlatYaml.codec fs_plain fs' "/w" "build" a1)
    as (k & Hk & Hcwd & Hframe).
  - exact plain_verb_build.
  - vm_compute. reflexivity.
  - vm_compute in Hk. injection Hk as <-.
    split; [exact Hcwd |]. split.
    + rewrite Hframe; [reflexivity | discriminate | discriminate | discriminate].
    + rewrite Hframe; [reflexivity | discriminate | discriminate | discriminate].
Defined.

Lemma plain_verb_clean : plain_verb "clean".
Proof. split; [discriminate | reflexivity]. Defined.

Lemma update_metadata_verbs_independent_witness :
  let fs1 := state_after (@update_metadata FlatYaml.codec "/w" "build" a1) fs_plain in
  let fs2 := state_after (@update_metadata FlatYaml.codec "/w" "clean" b2) fs1 in
  @get_metadata FlatYaml.codec "/w" "build" fs2 = (Returned (VMap a1), fs2).
Proof.
  intros fs1 fs2.
  rewrite (@update_metadata_verbs_independent FlatYaml.codec fs_plain fs1 fs2
             "/w" "build" "clean" a1 b2).
  - vm_compute. reflexivity.
  - exact plain_verb_build.
  - exact plain_verb_clean.
  - discriminate.
  - vm_compute. reflexivity.
  - vm_compute. reflexivity.
Defined.

Lemma update_metadata_refused_witness :
  @update_metadata FlatYaml.codec "/nowhere" "build" a1 fs_plain
  = (Raised (IOError (not_exist_message "/nowhere")), fs_plain)
  ∧ @update_metadata FlatYaml.codec "/home/a" "build" a1 fs_home_workspace
    = (Raised (IOError (nested_message "/home/a" "/home")), fs_home_workspace).
Proof.
  split.
  - apply (@update_metadata_refused FlatYaml.codec). reflexivity.
  - destruct (@update_metadata_refused FlatYaml.codec fs_home_workspace
                "/home/a" "build" a1) as [_ Hnested].
    apply (Hnested ["home"] ["a"]).
    + reflexivity.
    + exact plain_components_home_a.
    + discriminate.
    + reflexivity.
    + reflexivity.
    + exact nothing_between_home_and_a.
Defined.

Lemma get_paths_layout_witness :
  resolve fs_outside_document "/w/.catkin_tools" = inr ["w"; ".catkin_tools"]
  ∧ resolve fs_outside_document (get_paths "/w/" (Some "build")).1
    = inr ["w"; ".catkin_tools"]
  ∧ (∃ path, (get_paths "/w" (Some "build")).2 = Some path
             ∧ resolve fs_outside_document path
               = inr ["w"; ".catkin_tools"; "build.yml"])
  ∧ (get_paths "/w" (Some "/etc/x")).2 = Some "/etc/x.yml".
Proof.
  destruct (get_paths_layout fs_outside_document "/w" ["w"] "build")
    as (Hmd & Hslash & Hverb & _); [reflexivity | reflexivity |].
  destruct (get_paths_layout fs_outside_document "/w" ["w"] "/etc/x")
    as (_ & _ & _ & Habs); [reflexivity | reflexivity |].
  split; [exact Hmd |]. split; [exact Hslash |].
  split; [| apply Habs; reflexivity].
  apply Hverb; [exact plain_verb_build | reflexivity].
Defined.

Lemma update_metadata_idempotent_witness :
  let fs := fs_read_location "build" ("z: 9" +:+ FlatYaml.nl) in
  let fs' := state_after (@update_metadata FlatYaml.codec "/w" "build" a1) fs in
  result_of (@get_metadata FlatYaml.codec "/w" "build") fs'
  = Returned (VMap (a1 ∪ z9))
  ∧ @update_metadata FlatYaml.codec "/w" "build" a1 fs' = (Returned tt, fs').
Proof.
  intros fs fs'. split; [vm_compute; reflexivity |].
  apply (@update_metadata_idempotent FlatYaml.codec fs fs' "/w" "build" a1).
  - exact plain_verb_build.
  - vm_compute. reflexivity.
Defined.

Lemma find_enclosing_workspace_fixed_point_witness :
  is_workspace fs_home_workspace "/home" = true
  ∧ find_enclosing_workspace fs_home_workspace "/home" = Some "/home".
Proof.
  apply (find_enclosing_workspace_fixed_point fs_home_workspace "/home/a" "/home").
  reflexivity.
Defined.

End FurtherWitnesses.
